(** * clock++ : a shallow embedding of [clock++.hpp]

    The header keeps one process-wide registry of running timers,
    [s_start_times], indexed by call-site string and by thread id, and
    offers three operations: [clock_start], [clock_stop] and [clock_func]
    (reached through the macros CLOCK_START, CLOCK_STOP and CLOCK).

    [s_start_times] is declared [static] in the header, so every
    translation unit that includes it has a registry of its own, while
    [clock_start] and [clock_stop] are [inline]: a call runs the copy
    that was inlined where it stands or the one copy the linker kept, and
    works on the registry of the unit that copy was compiled in.

    The embedding threads an explicit [World] through every operation:
    the registries, what has been written to stderr, and how many times
    the high-resolution clock has been read.  The clock itself, the
    presence of pthreads and the unit whose copy a call runs are
    parameters. *)

From Stdlib Require Import ZArith String Ascii DecimalString HexadecimalString.
From stdpp Require Import gmap strings list fin_maps.

Local Open Scope Z_scope.

Module clockpp.

(** ** Machine integers *)

(** Conversion of a mathematical integer to an unsigned / two's-complement
    signed integer of [bits] bits. *)
Definition wrap_unsigned (bits z : Z) : Z := z mod 2 ^ bits.

Definition wrap_signed (bits z : Z) : Z :=
  (z + 2 ^ (bits - 1)) mod 2 ^ bits - 2 ^ (bits - 1).

(** ** printf conversions used by the two report formats *)

(** [%u] applied to an [int]. *)
Definition fmt_u (z : Z) : string :=
  DecimalString.NilZero.string_of_uint (N.to_uint (Z.to_N (wrap_unsigned 32 z))).

(** [%lu] applied to a [long]. *)
Definition fmt_lu (z : Z) : string :=
  DecimalString.NilZero.string_of_uint (N.to_uint (Z.to_N (wrap_unsigned 64 z))).

(** [%lx] applied to a [long]. *)
Definition fmt_lx (z : Z) : string :=
  HexadecimalString.NilZero.string_of_uint
    (N.to_hex_uint (Z.to_N (wrap_unsigned 64 z))).

Definition TAB : string := String "009" EmptyString.
Definition NL : string := String "010" EmptyString.

(** ["[CLOCK]\t%s\tlines %u-%u [thread %lx]:\t%lu ns\n"] *)
Definition format_stop (location : string) (start_line line thread_id diff : Z)
  : string :=
  "[CLOCK]" +:+ TAB +:+ location +:+ TAB +:+ "lines " +:+ fmt_u start_line
    +:+ "-" +:+ fmt_u line +:+ " [thread " +:+ fmt_lx thread_id +:+ "]:"
    +:+ TAB +:+ fmt_lu diff +:+ " ns" +:+ NL.

(** ["[CLOCK]\t%s\tline %u [thread %lx]:\t%lu ns\n"] *)
Definition format_func (location : string) (line thread_id diff : Z) : string :=
  "[CLOCK]" +:+ TAB +:+ location +:+ TAB +:+ "line " +:+ fmt_u line
    +:+ " [thread " +:+ fmt_lx thread_id +:+ "]:"
    +:+ TAB +:+ fmt_lu diff +:+ " ns" +:+ NL.

(** ** C strings

    A [const char *] is modelled by the characters before its terminator. *)

(** [snprintf(buff, size, "%s::%s", a, b)] followed by reading [buff] back
    as a C string: at most [size - 1] characters are stored. *)
Definition snprintf_loc (size : nat) (a b : string) : string :=
  substring 0 (size - 1) (a +:+ "::" +:+ b).

(** [strchr]: the suffix starting at the first occurrence of [c], if any.
    The terminator counts as part of the string. *)
Fixpoint strchr (s : string) (c : ascii) : option string :=
  match s with
  | EmptyString => if Ascii.eqb c zero then Some EmptyString else None
  | String a s' => if Ascii.eqb a c then Some s else strchr s' c
  end.

(** Conversion of a pointer to [bool]. *)
Definition ptr_to_bool {A} (p : option A) : bool :=
  match p with Some _ => true | None => false end.

(** ** Data *)

(** A [TimePoint] is the tick count (nanoseconds) since the clock's epoch. *)
Definition TimePoint : Type := Z.

Record Timer : Type := mkTimer { m_time : TimePoint; m_line : Z }.

(** A [std::stack<Timer>] is a list whose head is [top()]. *)
Abbreviation Stack := (list Timer).

(** [std::unordered_map<std::string, std::unordered_map<long, std::stack<Timer>>>] *)
Abbreviation Registry := (gmap string (gmap Z (list Timer))).

(** A translation unit that includes the header, by number. *)
Abbreviation TU := nat.

(** [statics] holds the [s_start_times] of each translation unit; a unit
    that is not listed has an empty one. *)
Record World : Type := mkWorld {
  statics : gmap TU Registry;
  stderr : list string;
  clock_reads : nat
}.

(** The [s_start_times] of unit [tu]. *)
Definition s_start_times (tu : TU) (w : World) : Registry :=
  default ∅ (statics w !! tu).

Definition set_registry (tu : TU) (r : Registry) (w : World) : World :=
  mkWorld (<[tu := r]> (statics w)) (stderr w) (clock_reads w).

(** One [fprintf(stderr, ...)] call. *)
Definition fprintf_stderr (s : string) (w : World) : World :=
  mkWorld (statics w) (stderr w ++ [s]) (clock_reads w).

(** The stack found at [r[location][thread_id]], empty when there is none. *)
Definition stack_at (location : string) (thread_id : Z) (r : Registry) : Stack :=
  default [] (default ∅ (r !! location) !! thread_id).

(** Writing through the reference returned by [r[location][thread_id]]. *)
Definition store_stack (location : string) (thread_id : Z) (s : Stack)
    (r : Registry) : Registry :=
  <[location := <[thread_id := s]> (default ∅ (r !! location))]> r.

(** [r[location][thread_id]]: both [operator[]] calls insert a
    default-constructed value when the key is missing. *)
Definition subscript (location : string) (thread_id : Z) (r : Registry)
  : Registry :=
  store_stack location thread_id (stack_at location thread_id r) r.

Definition get_location (file function : string) : string :=
  snprintf_loc 128 file function.

Section Platform.

(** Whether [_PTHREAD_H] is defined where the header is included. *)
Variable pthread_h : bool.

(** The raw value delivered by the [n]-th call of [Clock::now()]. *)
Variable ticks : nat -> Z.

(** [self] is what [pthread_self()] yields on the calling thread. *)
Definition get_thread_id (self : Z) : Z :=
  if pthread_h then wrap_signed 64 self else 0.

Definition Clock_now (w : World) : TimePoint * World :=
  (wrap_signed 64 (ticks (clock_reads w)),
   mkWorld (statics w) (stderr w) (S (clock_reads w))).

(** In [clock_start] and [clock_stop], [tu] is the translation unit in
    which the copy that runs was compiled: the name [s_start_times] in
    their bodies is that unit's registry. *)

(** Lines 114-118 of [clock_start]: the new [Timer] is emplaced with a
    default-constructed time point. *)
Definition clock_start_emplace (tu : TU) (file function : string)
    (line self : Z) (w : World) : World :=
  let thread_id := get_thread_id self in
  let location := get_location file function in
  let r := subscript location thread_id (s_start_times tu w) in
  let start_times := stack_at location thread_id r in
  set_registry tu
    (store_stack location thread_id (mkTimer 0 line :: start_times) r) w.

(** Line 119: [start_times.top().m_time = Clock::now()]. *)
Definition clock_start_stamp (tu : TU) (file function : string) (self : Z)
    (w : World) : World :=
  let thread_id := get_thread_id self in
  let location := get_location file function in
  let '(now, w) := Clock_now w in
  match stack_at location thread_id (s_start_times tu w) with
  | top :: rest =>
      set_registry tu
        (store_stack location thread_id (mkTimer now (m_line top) :: rest)
           (s_start_times tu w)) w
  | [] => w
  end.

Definition clock_start (tu : TU) (file function : string) (line self : Z)
    (w : World) : World :=
  clock_start_stamp tu file function self
    (clock_start_emplace tu file function line self w).

Definition clock_stop (tu : TU) (file function : string) (line self : Z)
    (w : World) : Z * World :=
  let '(end_, w) := Clock_now w in
  let thread_id := get_thread_id self in
  let location := get_location file function in
  let w :=
    set_registry tu (subscript location thread_id (s_start_times tu w)) w in
  match stack_at location thread_id (s_start_times tu w) with
  | [] => (0, w)
  | start :: rest =>
      (* [diff] is a [long]: the difference of two 64-bit tick counts *)
      let diff := wrap_signed 64 (end_ - m_time start) in
      let w :=
        fprintf_stderr
          (format_stop location (m_line start) line thread_id diff) w in
      let w :=
        set_registry tu
          (store_stack location thread_id rest (s_start_times tu w)) w in
      (wrap_unsigned 64 diff, w)
  end.

(** A callable either returns a value or throws; it may do anything to the
    world while it runs. *)
Definition Callable (E R : Type) : Type := World -> (E + R) * World.

(** [std::function<void()> func = std::bind(callable, params...)]. *)
Definition bind_void {E P R} (callable : P -> Callable E R) (params : P)
  : Callable E unit :=
  fun w =>
    let '(res, w) := callable params w in
    (match res with inl e => inl e | inr _ => inr tt end, w).

Definition clock_func {E P R} (callable : P -> Callable E R) (file : string)
    (line : Z) (f_name : string) (params : P) (self : Z) (w : World)
  : (E + Z) * World :=
  let is_lambda := ptr_to_bool (strchr f_name "[") in
  let thread_id := get_thread_id self in
  let location := get_location file (if is_lambda then "lambda()" else f_name) in
  let func := bind_void callable params in
  let '(start, w) := Clock_now w in
  match func w with
  | (inl e, w) => (inl e, w)
  | (inr _, w) =>
      let '(end_, w) := Clock_now w in
      let diff := wrap_signed 64 (end_ - start) in
      let w := fprintf_stderr (format_func location line thread_id diff) w in
      (inr (wrap_unsigned 64 diff), w)
  end.

End Platform.

(** ** Sequences of operations

    What a program does with the header is a sequence of macro
    expansions, each executed by some thread; a start or a stop comes
    with the unit whose copy of the function it runs. *)

Inductive Op (E : Type) : Type :=
| Start (tu : TU) (file function : string) (line : Z)
| Stop (tu : TU) (file function : string) (line : Z)
| Measure {P R : Type} (callable : P -> Callable E R) (file : string)
    (line : Z) (f_name : string) (params : P).

Arguments Start {E} _ _ _ _.
Arguments Stop {E} _ _ _ _.
Arguments Measure {E P R} _ _ _ _ _.

Definition run_op {E} (pthread_h : bool) (ticks : nat -> Z) (self : Z)
    (op : Op E) (w : World) : World :=
  match op with
  | Start tu file function line =>
      clock_start pthread_h ticks tu file function line self w
  | Stop tu file function line =>
      snd (clock_stop pthread_h ticks tu file function line self w)
  | Measure callable file line f_name params =>
      snd (clock_func pthread_h ticks callable file line f_name params self w)
  end.

(** A trace pairs each operation with the [pthread_self()] of its thread. *)
Definition run {E} (pthread_h : bool) (ticks : nat -> Z)
    (trace : list (Z * Op E)) (w : World) : World :=
  fold_left (fun w so => run_op pthread_h ticks (fst so) (snd so) w) trace w.

(** ** Vocabulary of the statements *)

(** The call sites and, per call site, the threads that have an entry. *)
Definition sites (r : Registry) : gset string := dom r.

Definition threads_of (location : string) (r : Registry) : gset Z :=
  dom (default ∅ (r !! location)).

Definition entries_persist (r r' : Registry) : Prop :=
  sites r ⊆ sites r' ∧ ∀ location, threads_of location r ⊆ threads_of location r'.

Definition keeps_entries {E R} (c : Callable E R) : Prop :=
  ∀ w tu,
    entries_persist (s_start_times tu w) (s_start_times tu (snd (c w))).

Definition op_keeps_entries {E} (op : Op E) : Prop :=
  match op with
  | Measure callable _ _ _ params => keeps_entries (callable params)
  | _ => True
  end.

(** A callable that behaves like [c] but returns [g] of its result. *)
Definition with_result {E R R'} (g : R -> R') (c : Callable E R) : Callable E R' :=
  fun w =>
    let '(res, w) := c w in
    (match res with inl e => inl e | inr v => inr (g v) end, w).

(** The world at process start: every registry empty, nothing written,
    the clock not read yet. *)
Definition initial_world : World := mkWorld ∅ [] 0.

(** A clock that advances seven ticks between two readings. *)
Definition steady_ticks (n : nat) : Z := 1000 + 7 * Z.of_nat n.

(** A signature longer than the buffer of [get_location], and an overload
    of it. *)
Definition long_signature : string :=
  "void process(const std::vector<std::pair<std::string, std::unordered_map<std::string, std::vector<int>>>>&, std::function<void(int)>, int)".

Definition long_signature' : string :=
  "void process(const std::vector<std::pair<std::string, std::unordered_map<std::string, std::vector<int>>>>&, std::function<void(int)>, long)".

(** ** The macros

    [CLOCK_START()], [CLOCK_STOP()] and [CLOCK(f, ...)] pass on what the
    preprocessor knows of the place where they are expanded. *)

Record CallSite : Type := mkCallSite {
  __FILE__ : string;
  __PRETTY_FUNCTION__ : string;
  __LINE__ : Z
}.

Definition CLOCK_START (pthread_h : bool) (ticks : nat -> Z) (tu : TU)
    (site : CallSite) (self : Z) (w : World) : World :=
  clock_start pthread_h ticks tu (__FILE__ site) (__PRETTY_FUNCTION__ site)
    (__LINE__ site) self w.

Definition CLOCK_STOP (pthread_h : bool) (ticks : nat -> Z) (tu : TU)
    (site : CallSite) (self : Z) (w : World) : Z * World :=
  clock_stop pthread_h ticks tu (__FILE__ site) (__PRETTY_FUNCTION__ site)
    (__LINE__ site) self w.

(** [f_text] is the spelling of the first macro argument, which [#f]
    turns into a string literal. *)
Definition CLOCK {E P R} (pthread_h : bool) (ticks : nat -> Z)
    (f : P -> Callable E R) (f_text : string) (params : P) (site : CallSite)
    (self : Z) (w : World) : (E + Z) * World :=
  clock_func pthread_h ticks f (__FILE__ site) (__LINE__ site)
    (f_text +:+ "()") params self w.

(** ** More vocabulary *)

(** The number of timers in a registry, over all call sites and threads,
    and in a world, over the registries of all units. *)
Definition in_flight_at (m : gmap Z (list Timer)) : nat :=
  map_fold (fun _ s n => (length s + n)%nat) 0%nat m.

Definition in_flight (r : Registry) : nat :=
  map_fold (fun _ m n => (in_flight_at m + n)%nat) 0%nat r.

Definition timers_in_flight (w : World) : nat :=
  map_fold (fun _ r n => (in_flight r + n)%nat) 0%nat (statics w).

Definition is_start {E} (op : Op E) : bool :=
  match op with Start _ _ _ _ => true | _ => false end.

Definition is_measure {E} (op : Op E) : bool :=
  match op with Measure _ _ _ _ _ => true | _ => false end.

(** How often the character [c] occurs in [s]. *)
Fixpoint count_char (c : ascii) (s : string) : nat :=
  match s with
  | EmptyString => 0%nat
  | String a s' => ((if Ascii.eqb a c then 1 else 0) + count_char c s')%nat
  end.

(** * Properties *)

(** ** The registry as a two-level map *)

Lemma stack_at_store_eq location thread_id s (r : Registry) :
  stack_at location thread_id (store_stack location thread_id s r) = s.
Proof.
  unfold stack_at, store_stack.
  by rewrite lookup_insert_eq; simpl; rewrite lookup_insert_eq.
Qed.

Lemma stack_at_store_ne location thread_id location' thread_id' s (r : Registry) :
  (location, thread_id) ≠ (location', thread_id') →
  stack_at location' thread_id' (store_stack location thread_id s r)
  = stack_at location' thread_id' r.
Proof.
  intros Hne. unfold stack_at, store_stack.
  destruct (decide (location = location')) as [->|Hl].
  - rewrite lookup_insert_eq; simpl.
    rewrite lookup_insert_ne; [done | congruence].
  - by rewrite lookup_insert_ne.
Qed.

Lemma store_store location thread_id s s' (r : Registry) :
  store_stack location thread_id s (store_stack location thread_id s' r)
  = store_stack location thread_id s r.
Proof.
  unfold store_stack.
  rewrite lookup_insert_eq; simpl.
  by rewrite insert_insert_eq, insert_insert_eq.
Qed.

Lemma stack_at_subscript location thread_id location' thread_id' (r : Registry) :
  stack_at location' thread_id' (subscript location thread_id r)
  = stack_at location' thread_id' r.
Proof.
  unfold subscript.
  destruct (decide ((location, thread_id) = (location', thread_id'))) as [Heq|Hne].
  - injection Heq as -> ->. apply stack_at_store_eq.
  - by apply stack_at_store_ne.
Qed.

Lemma store_subscript location thread_id s (r : Registry) :
  store_stack location thread_id s (subscript location thread_id r)
  = store_stack location thread_id s r.
Proof. apply store_store. Qed.

Lemma sites_store location thread_id s (r : Registry) :
  sites (store_stack location thread_id s r) = {[location]} ∪ sites r.
Proof. unfold sites, store_stack. apply dom_insert_L. Qed.

Lemma threads_of_store_eq location thread_id s (r : Registry) :
  threads_of location (store_stack location thread_id s r)
  = {[thread_id]} ∪ threads_of location r.
Proof.
  unfold threads_of, store_stack.
  rewrite lookup_insert_eq; simpl. apply dom_insert_L.
Qed.

Lemma threads_of_store_ne location location' thread_id s (r : Registry) :
  location ≠ location' →
  threads_of location' (store_stack location thread_id s r)
  = threads_of location' r.
Proof.
  intros Hne. unfold threads_of, store_stack. by rewrite lookup_insert_ne.
Qed.

Lemma entries_persist_refl (r : Registry) : entries_persist r r.
Proof. by split. Qed.

Lemma entries_persist_trans (r1 r2 r3 : Registry) :
  entries_persist r1 r2 → entries_persist r2 r3 → entries_persist r1 r3.
Proof.
  intros [Hs1 Ht1] [Hs2 Ht2]. split; [set_solver |].
  intros location. specialize (Ht1 location). specialize (Ht2 location).
  set_solver.
Qed.

Lemma entries_persist_store location thread_id s (r : Registry) :
  entries_persist r (store_stack location thread_id s r).
Proof.
  split.
  - rewrite sites_store. set_solver.
  - intros location'. destruct (decide (location = location')) as [<-|Hne].
    + rewrite threads_of_store_eq. set_solver.
    + by rewrite threads_of_store_ne.
Qed.

(** ** Call-site identity *)

Lemma substring_0_prefix (n : nat) (s : string) :
  ∃ rest, s = substring 0 n s +:+ rest.
Proof.
  revert s. induction n as [| n IH]; intros [| c s]; simpl; eauto.
  destruct (IH s) as [rest Hrest]. exists rest.
  change (String c s = String c (substring 0 n s +:+ rest)). by f_equal.
Qed.

Lemma substring_0_length (n : nat) (s : string) :
  String.length (substring 0 n s) = Nat.min n (String.length s).
Proof.
  revert s. induction n as [| n IH]; intros [| c s]; simpl; auto.
Qed.

Lemma substring_0_all (n : nat) (s : string) :
  (String.length s <= n)%nat → substring 0 n s = s.
Proof.
  revert s. induction n as [| n IH]; intros [| c s]; simpl; intros Hle;
    try done; try lia.
  f_equal. apply IH. lia.
Qed.

Lemma substring_0_eq_iff (n : nat) (s s' : string) :
  substring 0 n s = substring 0 n s'
  ↔ ∀ i, (i < n)%nat → String.get i s = String.get i s'.
Proof.
  split.
  - intros Heq i Hi.
    rewrite <- (Nat.add_0_r i).
    rewrite <- (substring_correct1 s 0 n i Hi), <- (substring_correct1 s' 0 n i Hi).
    by rewrite Heq.
  - intros Hget. apply get_correct. intros i.
    destruct (Nat.lt_ge_cases i n) as [Hi | Hi].
    + rewrite !substring_correct1 by done. rewrite Nat.add_0_r. by apply Hget.
    + by rewrite !substring_correct2.
Qed.

(** C4 (as the code has it).  The identity is the file name, the separator
    "::" and the function signature, cut after 127 characters: it is a
    prefix of that concatenation, is the whole of it when it has at most
    127 characters, and two call sites get the same identity exactly when
    their concatenations agree on the first 127 characters. *)
Theorem get_location_truncates (file function : string) :
  let full := file +:+ "::" +:+ function in
  (∃ rest, full = get_location file function +:+ rest)
  ∧ String.length (get_location file function)
    = Nat.min 127 (String.length full)
  ∧ ((String.length full <= 127)%nat → get_location file function = full)
  ∧ ∀ file' function',
      get_location file function = get_location file' function'
      ↔ ∀ i, (i < 127)%nat →
          String.get i full = String.get i (file' +:+ "::" +:+ function').
Proof.
  intros full. unfold get_location, snprintf_loc.
  change (128 - 1)%nat with 127%nat. fold full.
  split; [apply substring_0_prefix |].
  split; [apply substring_0_length |].
  split; [apply substring_0_all |].
  intros file' function'. apply substring_0_eq_iff.
Qed.

(** ** One registry per translation unit *)

Lemma s_start_times_set_eq tu r m e c :
  s_start_times tu (mkWorld (<[tu := r]> m) e c) = r.
Proof. unfold s_start_times. simpl. by rewrite lookup_insert_eq. Qed.

Lemma s_start_times_set_ne tu tu' r m e c :
  tu ≠ tu' →
  s_start_times tu' (mkWorld (<[tu := r]> m) e c) = default ∅ (m !! tu').
Proof. intros Hne. unfold s_start_times. simpl. by rewrite lookup_insert_ne. Qed.

(** The stack under any key of any unit, after the stack under one key of
    one unit has been replaced. *)
Lemma stack_at_set tu location thread_id s tu' location' thread_id' w e c :
  stack_at location' thread_id'
    (s_start_times tu'
       (mkWorld
          (<[tu := store_stack location thread_id s (s_start_times tu w)]>
             (statics w)) e c))
  = if decide ((tu', location', thread_id') = (tu, location, thread_id))
    then s
    else stack_at location' thread_id' (s_start_times tu' w).
Proof.
  destruct (decide (tu = tu')) as [<- | Htu].
  - rewrite s_start_times_set_eq.
    destruct (decide ((location, thread_id) = (location', thread_id')))
      as [Heq | Hne].
    + injection Heq as <- <-. rewrite stack_at_store_eq.
      by rewrite decide_True.
    + rewrite stack_at_store_ne by done.
      rewrite decide_False; [done | congruence].
  - rewrite s_start_times_set_ne by done.
    rewrite decide_False; [done | congruence].
Qed.

(** ** The three operations, step by step *)

Section Operations.

Variable pthread_h : bool.
Variable ticks : nat -> Z.

(** The reading the clock delivers in world [w]. *)
Let reading (w : World) : TimePoint := wrap_signed 64 (ticks (clock_reads w)).

Lemma clock_start_emplace_world tu file function line self w :
  clock_start_emplace pthread_h tu file function line self w
  = mkWorld
      (<[tu :=
           store_stack (get_location file function)
             (get_thread_id pthread_h self)
             (mkTimer 0 line
                :: stack_at (get_location file function)
                     (get_thread_id pthread_h self) (s_start_times tu w))
             (s_start_times tu w)]> (statics w))
      (stderr w) (clock_reads w).
Proof.
  unfold clock_start_emplace, set_registry.
  by rewrite stack_at_subscript, store_subscript.
Qed.

Lemma clock_start_world tu file function line self w :
  clock_start pthread_h ticks tu file function line self w
  = mkWorld
      (<[tu :=
           store_stack (get_location file function)
             (get_thread_id pthread_h self)
             (mkTimer (reading w) line
                :: stack_at (get_location file function)
                     (get_thread_id pthread_h self) (s_start_times tu w))
             (s_start_times tu w)]> (statics w))
      (stderr w) (S (clock_reads w)).
Proof.
  unfold clock_start. rewrite clock_start_emplace_world.
  unfold clock_start_stamp, Clock_now, set_registry; simpl.
  rewrite !s_start_times_set_eq.
  by rewrite stack_at_store_eq, store_store, insert_insert_eq.
Qed.

Lemma clock_stop_empty tu file function line self w :
  stack_at (get_location file function) (get_thread_id pthread_h self)
    (s_start_times tu w) = [] →
  clock_stop pthread_h ticks tu file function line self w
  = (0, mkWorld
          (<[tu :=
               subscript (get_location file function)
                 (get_thread_id pthread_h self) (s_start_times tu w)]>
             (statics w))
          (stderr w) (S (clock_reads w))).
Proof.
  intros Hs. unfold clock_stop, Clock_now, set_registry; simpl.
  rewrite s_start_times_set_eq.
  change (s_start_times tu (mkWorld (statics w) (stderr w) (S (clock_reads w))))
    with (s_start_times tu w).
  by rewrite stack_at_subscript, Hs.
Qed.

Lemma wrap_unsigned_signed z : wrap_unsigned 64 (wrap_signed 64 z) = z mod 2 ^ 64.
Proof.
  unfold wrap_unsigned, wrap_signed.
  rewrite Zminus_mod_idemp_l.
  f_equal. lia.
Qed.

Lemma wrap_signed_range z : - 2 ^ 63 <= wrap_signed 64 z < 2 ^ 63.
Proof.
  unfold wrap_signed.
  pose proof (Z.mod_pos_bound (z + 2 ^ (64 - 1)) (2 ^ 64) ltac:(lia)).
  change (2 ^ (64 - 1)) with (2 ^ 63) in *.
  change (2 ^ 64) with (2 * 2 ^ 63) in *. lia.
Qed.

Lemma fmt_lu_wrap z : fmt_lu (wrap_unsigned 64 z) = fmt_lu z.
Proof.
  unfold fmt_lu, wrap_unsigned. by rewrite Z.mod_mod by lia.
Qed.

Lemma format_stop_wrap location start_line line thread_id diff :
  format_stop location start_line line thread_id (wrap_unsigned 64 diff)
  = format_stop location start_line line thread_id diff.
Proof. unfold format_stop. by rewrite fmt_lu_wrap. Qed.

Lemma format_func_wrap location line thread_id diff :
  format_func location line thread_id (wrap_unsigned 64 diff)
  = format_func location line thread_id diff.
Proof. unfold format_func. by rewrite fmt_lu_wrap. Qed.

Lemma clock_stop_cons tu file function line self w start rest :
  stack_at (get_location file function) (get_thread_id pthread_h self)
    (s_start_times tu w) = start :: rest →
  clock_stop pthread_h ticks tu file function line self w
  = ((reading w - m_time start) mod 2 ^ 64,
     mkWorld
       (<[tu :=
            store_stack (get_location file function)
              (get_thread_id pthread_h self) rest (s_start_times tu w)]>
          (statics w))
       (stderr w
          ++ [format_stop (get_location file function) (m_line start) line
                (get_thread_id pthread_h self)
                ((reading w - m_time start) mod 2 ^ 64)])
       (S (clock_reads w))).
Proof.
  intros Hs. unfold clock_stop, Clock_now, set_registry, fprintf_stderr; simpl.
  rewrite !s_start_times_set_eq.
  change (s_start_times tu (mkWorld (statics w) (stderr w) (S (clock_reads w))))
    with (s_start_times tu w).
  rewrite stack_at_subscript, Hs, s_start_times_set_eq.
  rewrite store_subscript, insert_insert_eq.
  fold (reading w).
  by rewrite <- format_stop_wrap, wrap_unsigned_signed.
Qed.

(** *** Stopping *)

(** C1.  A stop on a (call-site, thread) key whose stack is empty, whether
    the key has an entry or not, returns exactly 0 and writes nothing to
    stderr.  This holds of the registry of whichever unit the stop works
    on. *)
Theorem clock_stop_unmatched tu file function line self w :
  stack_at (get_location file function) (get_thread_id pthread_h self)
    (s_start_times tu w) = [] →
  fst (clock_stop pthread_h ticks tu file function line self w) = 0
  ∧ stderr (snd (clock_stop pthread_h ticks tu file function line self w))
    = stderr w.
Proof.
  intros Hs. by rewrite (clock_stop_empty _ _ _ _ _ _ Hs).
Qed.

(** C2.  A stop on a key whose stack is [start :: rest] pops exactly
    [start], the interval pushed last; returns a number of nanoseconds
    that is never negative and is the clock reading taken by the stop
    minus [start]'s timestamp (modulo 2^64 in general, exactly so when the
    clock has not gone backwards since the start); and appends exactly one
    line to stderr, leaving every other stack, of the same unit and of
    every other, as it was. *)
Theorem clock_stop_matched tu file function line self w start rest :
  stack_at (get_location file function) (get_thread_id pthread_h self)
    (s_start_times tu w) = start :: rest →
  let location := get_location file function in
  let thread_id := get_thread_id pthread_h self in
  let now := wrap_signed 64 (ticks (clock_reads w)) in
  let ns := fst (clock_stop pthread_h ticks tu file function line self w) in
  let w' := snd (clock_stop pthread_h ticks tu file function line self w) in
  0 <= ns
  ∧ ns = (now - m_time start) mod 2 ^ 64
  ∧ (- 2 ^ 63 <= m_time start <= now → ns = now - m_time start)
  ∧ stack_at location thread_id (s_start_times tu w') = rest
  ∧ (∀ tu' location' thread_id',
       (tu, location, thread_id) ≠ (tu', location', thread_id') →
       stack_at location' thread_id' (s_start_times tu' w')
       = stack_at location' thread_id' (s_start_times tu' w))
  ∧ stderr w'
    = stderr w ++ [format_stop location (m_line start) line thread_id ns].
Proof.
  intros Hs location thread_id now ns w'.
  subst ns w'. rewrite (clock_stop_cons _ _ _ _ _ _ _ _ Hs); simpl.
  fold location thread_id. unfold reading. fold now.
  pose proof (Z.mod_pos_bound (now - m_time start) (2 ^ 64) ltac:(lia)) as Hb.
  split; [lia |]. split; [done |]. split; [| split; [| split; [| done]]].
  - intros [Hlo Hhi]. apply Z.mod_small.
    pose proof (wrap_signed_range (ticks (clock_reads w))) as Hn. fold now in Hn.
    change (2 ^ 64) with (2 * 2 ^ 63). lia.
  - rewrite stack_at_set. by rewrite decide_True.
  - intros tu' location' thread_id' Hne. rewrite stack_at_set.
    rewrite decide_False; [done | congruence].
Qed.

(** C9.  A stop on a key with no entry in the registry is not a no-op on
    the registry: it returns 0 and reports nothing, but it leaves behind an
    entry for the call site and an empty stack for the thread, so the
    registry differs from what it was; when the call site itself was
    unknown the registry has one more call site than before. *)
Theorem clock_stop_unmatched_inserts tu file function line self w :
  get_thread_id pthread_h self
    ∉ threads_of (get_location file function) (s_start_times tu w) →
  let location := get_location file function in
  let thread_id := get_thread_id pthread_h self in
  let r := s_start_times tu w in
  let r' :=
    s_start_times tu
      (snd (clock_stop pthread_h ticks tu file function line self w)) in
  fst (clock_stop pthread_h ticks tu file function line self w) = 0
  ∧ stderr (snd (clock_stop pthread_h ticks tu file function line self w))
    = stderr w
  ∧ r' = <[location := <[thread_id := []]> (default ∅ (r !! location))]> r
  ∧ (default ∅ (r' !! location)) !! thread_id = Some []
  ∧ r' ≠ r
  ∧ (r !! location = None →
     r' = <[location := {[thread_id := []]}]> r ∧ size r' = S (size r)).
Proof.
  intros Hnone location thread_id r r'.
  assert (Hin : default ∅ (r !! location) !! thread_id = None).
  { apply not_elem_of_dom. exact Hnone. }
  assert (Hs : stack_at location thread_id r = []).
  { unfold stack_at. by rewrite Hin. }
  subst r'. rewrite (clock_stop_empty _ _ _ _ _ _ Hs); simpl.
  rewrite s_start_times_set_eq.
  fold location thread_id r. unfold subscript. rewrite Hs. unfold store_stack.
  assert (Hnew : (default ∅
       (<[location := <[thread_id := []]> (default ∅ (r !! location))]> r
          !! location)) !! thread_id = Some ([] : Stack)).
  { rewrite lookup_insert_eq; simpl. by rewrite lookup_insert_eq. }
  split; [done |]. split; [done |]. split; [done |]. split; [done |].
  split.
  - intros Heq. rewrite Heq in Hnew. congruence.
  - intros Hr. rewrite Hr. simpl. split.
    + by rewrite insert_empty.
    + by apply map_size_insert_None.
Qed.

(** *** Nesting within one registry *)

(** X16.  Start A, then start B, then two stops, all on the same
    (call-site, thread) key and all working on the registry of the same
    unit [tu]; in between, anything may happen that leaves that key's
    stack alone.  The first stop pops B and reports B's start line and the
    time since B's timestamp; the second pops A and reports A's start line
    and the time since A's timestamp; the stack is then what it was
    before A. *)
Theorem nested_stops_are_lifo tu file function lineA lineB line1 line2 self
    wA wB w1 w2 :
  let location := get_location file function in
  let thread_id := get_thread_id pthread_h self in
  let at_key w := stack_at location thread_id (s_start_times tu w) in
  let A := mkTimer (wrap_signed 64 (ticks (clock_reads wA))) lineA in
  let B := mkTimer (wrap_signed 64 (ticks (clock_reads wB))) lineB in
  let stop1 := clock_stop pthread_h ticks tu file function line1 self w1 in
  let stop2 := clock_stop pthread_h ticks tu file function line2 self w2 in
  at_key wB
  = at_key (clock_start pthread_h ticks tu file function lineA self wA) →
  at_key w1
  = at_key (clock_start pthread_h ticks tu file function lineB self wB) →
  at_key w2 = at_key (snd stop1) →
  at_key w1 = B :: A :: at_key wA
  ∧ at_key (snd stop1) = A :: at_key wA
  ∧ stderr (snd stop1)
    = stderr w1 ++ [format_stop location lineB line1 thread_id (fst stop1)]
  ∧ fst stop1 = (wrap_signed 64 (ticks (clock_reads w1)) - m_time B) mod 2 ^ 64
  ∧ at_key (snd stop2) = at_key wA
  ∧ stderr (snd stop2)
    = stderr w2 ++ [format_stop location lineA line2 thread_id (fst stop2)]
  ∧ fst stop2 = (wrap_signed 64 (ticks (clock_reads w2)) - m_time A) mod 2 ^ 64.
Proof.
  intros location thread_id at_key A B stop1 stop2 HB H1 H2.
  assert (Hstart : ∀ line w,
            at_key (clock_start pthread_h ticks tu file function line self w)
            = mkTimer (wrap_signed 64 (ticks (clock_reads w))) line :: at_key w).
  { intros line w. unfold at_key. rewrite clock_start_world, stack_at_set.
    by rewrite decide_True. }
  assert (HsB : at_key wB = A :: at_key wA) by (by rewrite HB, Hstart).
  assert (Hs1 : at_key w1 = B :: A :: at_key wA).
  { by rewrite H1, Hstart, HsB. }
  assert (Hpop1 : at_key (snd stop1) = A :: at_key wA).
  { subst stop1. unfold at_key at 1.
    rewrite (clock_stop_cons _ _ _ _ _ _ _ _ Hs1); simpl.
    rewrite stack_at_set. by rewrite decide_True. }
  assert (Hs2 : at_key w2 = A :: at_key wA) by (rewrite H2; exact Hpop1).
  split; [exact Hs1 |]. split; [exact Hpop1 |].
  subst stop1 stop2.
  rewrite (clock_stop_cons _ _ _ _ _ _ _ _ Hs1), (clock_stop_cons _ _ _ _ _ _ _ _ Hs2).
  simpl. unfold at_key at 1. rewrite stack_at_set, decide_True by done.
  repeat split; reflexivity.
Qed.

(** *** Timers in the registries *)

Lemma clock_func_world {E P R} (callable : P -> Callable E R) file line f_name
    params self w :
  let w1 := snd (Clock_now ticks w) in
  let location :=
    get_location file
      (if ptr_to_bool (strchr f_name "[") then "lambda()" else f_name) in
  clock_func pthread_h ticks callable file line f_name params self w
  = match callable params w1 with
    | (inl e, w2) => (inl e, w2)
    | (inr _, w2) =>
        let ns :=
          (wrap_signed 64 (ticks (clock_reads w2))
           - wrap_signed 64 (ticks (clock_reads w))) mod 2 ^ 64 in
        (inr ns,
         mkWorld (statics w2)
           (stderr w2
              ++ [format_func location line (get_thread_id pthread_h self) ns])
           (S (clock_reads w2)))
    end.
Proof.
  intros w1 location. subst w1.
  unfold clock_func, bind_void, Clock_now, fprintf_stderr. simpl.
  destruct (callable params _) as [[e | v] w2]; [done |].
  simpl. fold location.
  by rewrite <- format_func_wrap, wrap_unsigned_signed.
Qed.

Lemma clock_func_registry {E P R} (callable : P -> Callable E R) file line
    f_name params self w :
  statics
    (snd (clock_func pthread_h ticks callable file line f_name params self w))
  = statics (snd (callable params (snd (Clock_now ticks w)))).
Proof.
  rewrite clock_func_world.
  by destruct (callable params _) as [[e | v] w2].
Qed.

(** C5 (as the code has it).  A timer comes into being in a start and in
    no other way: the start puts one new timer on the stack of its own
    key, holding when the start returns the clock reading taken by that
    start and the start's line, and leaves every other stack of every
    unit as it is.  A timer leaves in a stop on its own key while it is on
    top, and in no other way: the stop removes the top of its own key's
    stack, if there is one, and leaves every other stack as it is.
    Measuring a callable leaves all registries exactly as the callable
    left them.  So between the return of its start and the stop that pops
    it, a timer keeps its place and both its fields. *)
Theorem timers_fixed_once_started tu file function line self w :
  let key := (tu, get_location file function, get_thread_id pthread_h self) in
  (∀ tu' location thread_id,
     stack_at location thread_id
       (s_start_times tu'
          (clock_start pthread_h ticks tu file function line self w))
     = if decide ((tu', location, thread_id) = key)
       then mkTimer (wrap_signed 64 (ticks (clock_reads w))) line
              :: stack_at location thread_id (s_start_times tu' w)
       else stack_at location thread_id (s_start_times tu' w))
  ∧ (∀ tu' location thread_id,
       stack_at location thread_id
         (s_start_times tu'
            (snd (clock_stop pthread_h ticks tu file function line self w)))
       = if decide ((tu', location, thread_id) = key)
         then tail (stack_at location thread_id (s_start_times tu' w))
         else stack_at location thread_id (s_start_times tu' w))
  ∧ (∀ (E P R : Type) (callable : P -> Callable E R) f_name params,
       statics
         (snd (clock_func pthread_h ticks callable file line f_name params self w))
       = statics (snd (callable params (snd (Clock_now ticks w))))).
Proof.
  intros key. split; [| split].
  - intros tu' location thread_id. rewrite clock_start_world, stack_at_set.
    subst key. destruct (decide _) as [Heq | Hne]; [| done].
    by injection Heq as -> -> ->.
  - intros tu' location thread_id.
    destruct (stack_at (get_location file function)
                (get_thread_id pthread_h self) (s_start_times tu w))
      as [| start rest] eqn:Hs.
    + rewrite (clock_stop_empty _ _ _ _ _ _ Hs); simpl.
      unfold subscript. rewrite stack_at_set, Hs.
      subst key. destruct (decide _) as [Heq | Hne]; [| done].
      injection Heq as -> -> ->. by rewrite Hs.
    + rewrite (clock_stop_cons _ _ _ _ _ _ _ _ Hs); simpl.
      rewrite stack_at_set.
      subst key. destruct (decide _) as [Heq | Hne]; [| done].
      injection Heq as -> -> ->. by rewrite Hs.
  - intros E P R callable f_name params. apply clock_func_registry.
Qed.

(** *** Measuring a callable *)

Lemma strchr_found (s : string) (c : ascii) :
  c ≠ zero → (ptr_to_bool (strchr s c) = true ↔ In c (list_ascii_of_string s)).
Proof.
  intros Hc. induction s as [| a s IH]; simpl.
  - destruct (Ascii.eqb_spec c zero); [done |]. simpl. split; [done | tauto].
  - destruct (Ascii.eqb_spec a c) as [-> | Hne]; simpl.
    + split; [by left | done].
    + rewrite IH. split; [by right | intros [? | ?]; done].
Qed.

(** C6.  When the callable throws, [clock_func] ends with that very
    exception and leaves the world as the callable left it: nothing is
    written to stderr.  A report line is written only in the other case,
    when the callable returns. *)
Theorem clock_func_exception_propagates {E P R} (callable : P -> Callable E R)
    file line f_name params self w res w2 :
  callable params (snd (Clock_now ticks w)) = (res, w2) →
  match res with
  | inl e =>
      clock_func pthread_h ticks callable file line f_name params self w
      = (inl e, w2)
  | inr _ =>
      ∃ ns location,
        fst (clock_func pthread_h ticks callable file line f_name params self w)
        = inr ns
        ∧ stderr
            (snd (clock_func pthread_h ticks callable file line f_name params self w))
          = stderr w2
              ++ [format_func location line (get_thread_id pthread_h self) ns]
  end.
Proof.
  intros Hc. rewrite clock_func_world, Hc.
  destruct res as [e | v]; [done |]. simpl. eauto.
Qed.

(** C7.  The callable counts as anonymous exactly when its display name
    contains the character '['.  The call site in the report is then made
    of the file and the label "lambda()"; otherwise of the file and the
    display name as supplied. *)
Theorem clock_func_lambda_label {E P R} (callable : P -> Callable E R)
    file line f_name params self w v w2 :
  callable params (snd (Clock_now ticks w)) = (inr v, w2) →
  let w' :=
    snd (clock_func pthread_h ticks callable file line f_name params self w) in
  let report label ns :=
    format_func (get_location file label) line (get_thread_id pthread_h self) ns in
  (ptr_to_bool (strchr f_name "[") = true
   ↔ In "["%char (list_ascii_of_string f_name))
  ∧ (In "["%char (list_ascii_of_string f_name) →
     ∃ ns, stderr w' = stderr w2 ++ [report "lambda()" ns])
  ∧ (¬ In "["%char (list_ascii_of_string f_name) →
     ∃ ns, stderr w' = stderr w2 ++ [report f_name ns]).
Proof.
  intros Hc w' report. subst w'. rewrite clock_func_world, Hc. simpl.
  assert (Hm := strchr_found f_name "[" ltac:(done)).
  split; [exact Hm |]. split.
  - intros Hin. apply Hm in Hin. rewrite Hin. eauto.
  - intros Hnot. destruct (ptr_to_bool (strchr f_name "[")) eqn:Hb.
    + destruct Hnot. by apply Hm.
    + eauto.
Qed.

(** C10.  What the callable returns is dropped: replacing the callable by
    one that differs only in its return value changes nothing in what
    [clock_func] returns or does, and when the callable returns, the value
    handed back is the difference of the two clock readings. *)
Theorem clock_func_discards_result {E P R R'} (g : R -> R')
    (callable : P -> Callable E R) file line f_name params self w :
  clock_func pthread_h ticks (fun p => with_result g (callable p))
    file line f_name params self w
  = clock_func pthread_h ticks callable file line f_name params self w
  ∧ ∀ v w2,
      callable params (snd (Clock_now ticks w)) = (inr v, w2) →
      fst (clock_func pthread_h ticks callable file line f_name params self w)
      = inr ((wrap_signed 64 (ticks (clock_reads w2))
              - wrap_signed 64 (ticks (clock_reads w))) mod 2 ^ 64).
Proof.
  split.
  - rewrite !clock_func_world. unfold with_result.
    by destruct (callable params _) as [[e | v] w2].
  - intros v w2 Hc. by rewrite clock_func_world, Hc.
Qed.

(** *** The registries only grow *)

Lemma entries_persist_set tu location thread_id st tu' w e c :
  entries_persist (s_start_times tu' w)
    (s_start_times tu'
       (mkWorld
          (<[tu := store_stack location thread_id st (s_start_times tu w)]>
             (statics w)) e c)).
Proof.
  destruct (decide (tu = tu')) as [<- | Hne].
  - rewrite s_start_times_set_eq. apply entries_persist_store.
  - rewrite s_start_times_set_ne by done. apply entries_persist_refl.
Qed.

Lemma clock_start_persist tu file function line self tu' w :
  entries_persist (s_start_times tu' w)
    (s_start_times tu'
       (clock_start pthread_h ticks tu file function line self w)).
Proof. rewrite clock_start_world. apply entries_persist_set. Qed.

Lemma clock_stop_persist tu file function line self tu' w :
  entries_persist (s_start_times tu' w)
    (s_start_times tu'
       (snd (clock_stop pthread_h ticks tu file function line self w))).
Proof.
  destruct (stack_at (get_location file function)
              (get_thread_id pthread_h self) (s_start_times tu w))
    as [| start rest] eqn:Hs.
  - rewrite (clock_stop_empty _ _ _ _ _ _ Hs). apply entries_persist_set.
  - rewrite (clock_stop_cons _ _ _ _ _ _ _ _ Hs). apply entries_persist_set.
Qed.

Lemma run_op_persist {E} self (op : Op E) tu' w :
  op_keeps_entries op →
  entries_persist (s_start_times tu' w)
    (s_start_times tu' (run_op pthread_h ticks self op w)).
Proof.
  destruct op as [tu file function line | tu file function line
                 | P R callable file line f_name params]; simpl; intros Hk.
  - apply clock_start_persist.
  - apply clock_stop_persist.
  - unfold s_start_times at 2. rewrite clock_func_registry.
    apply (Hk (snd (Clock_now ticks w)) tu').
Qed.

(** C8.  Along any sequence of starts, stops and measurements, by any
    threads, every call site present in a registry stays present and so
    does every thread entry under it, provided the measured callables do
    not remove entries themselves; and the stack a stop works on is still
    in the registry after the stop.  This holds of the registry of every
    unit. *)
Theorem entries_never_removed {E} (trace : list (Z * Op E)) w :
  Forall (fun so => op_keeps_entries (snd so)) trace →
  (∀ tu,
     entries_persist (s_start_times tu w)
       (s_start_times tu (run pthread_h ticks trace w)))
  ∧ ∀ tu file function line self,
      let r' :=
        s_start_times tu
          (snd (clock_stop pthread_h ticks tu file function line self w)) in
      get_location file function ∈ sites r'
      ∧ get_thread_id pthread_h self ∈ threads_of (get_location file function) r'.
Proof.
  intros Hk. split.
  - intros tu. revert w. induction Hk as [| [self op] trace Hop _ IH]; intros w.
    + apply entries_persist_refl.
    + simpl. eapply entries_persist_trans; [| apply IH].
      by apply run_op_persist.
  - intros tu file function line self r'. subst r'.
    destruct (stack_at (get_location file function)
                (get_thread_id pthread_h self) (s_start_times tu w))
      as [| start rest] eqn:Hs.
    + rewrite (clock_stop_empty _ _ _ _ _ _ Hs); simpl.
      rewrite s_start_times_set_eq. unfold subscript.
      rewrite sites_store, threads_of_store_eq. set_solver.
    + rewrite (clock_stop_cons _ _ _ _ _ _ _ _ Hs); simpl.
      rewrite s_start_times_set_eq.
      rewrite sites_store, threads_of_store_eq. set_solver.
Qed.

End Operations.

(** ** The statements above on concrete runs

    A process with pthreads whose clock is [steady_ticks]; the thread that
    runs has [pthread_self() = 1], and the calls work on the registry of
    unit 0 unless another unit is named. *)

(** The scenario of the header's own usage note: a start at line 10 and a
    stop at line 12 of [main] in [a.cpp]. *)
Example start_stop_report :
  clock_stop true steady_ticks 0 "a.cpp" "main" 12 1
    (clock_start true steady_ticks 0 "a.cpp" "main" 10 1 initial_world)
  = (7,
     mkWorld {[ 0%nat := {[ "a.cpp::main"%string := {[ 1 := [] ]} ]} ]}
       ["[CLOCK]" +:+ TAB +:+ "a.cpp::main" +:+ TAB
          +:+ "lines 10-12 [thread 1]:" +:+ TAB +:+ "7 ns" +:+ NL]
       2).
Proof. vm_compute. reflexivity. Qed.

Lemma clock_stop_unmatched_witness :
  stack_at (get_location "a.cpp" "main") (get_thread_id true 1)
    (s_start_times 0 initial_world) = []
  ∧ fst (clock_stop true steady_ticks 0 "a.cpp" "main" 12 1 initial_world) = 0
  ∧ stderr (snd (clock_stop true steady_ticks 0 "a.cpp" "main" 12 1 initial_world))
    = [].
Proof.
  split; [reflexivity |].
  apply (clock_stop_unmatched true steady_ticks 0 "a.cpp" "main" 12 1 initial_world).
  reflexivity.
Defined.

Lemma clock_stop_matched_witness :
  let w := clock_start true steady_ticks 0 "a.cpp" "main" 10 1 initial_world in
  stack_at (get_location "a.cpp" "main") (get_thread_id true 1)
    (s_start_times 0 w) = [mkTimer 1000 10]
  ∧ fst (clock_stop true steady_ticks 0 "a.cpp" "main" 12 1 w) = 1007 - 1000.
Proof.
  intros w. split; [reflexivity |].
  destruct (clock_stop_matched true steady_ticks 0 "a.cpp" "main" 12 1 w
              (mkTimer 1000 10) [] eq_refl) as (_ & _ & Hexact & _).
  apply Hexact. vm_compute. split; discriminate.
Defined.

Lemma clock_stop_unmatched_inserts_witness :
  (get_thread_id true 1
     ∉ threads_of (get_location "a.cpp" "main") (s_start_times 0 initial_world))
  ∧ (s_start_times 0
       (snd (clock_stop true steady_ticks 0 "a.cpp" "main" 12 1 initial_world))
     ≠ s_start_times 0 initial_world).
Proof.
  assert (Hfresh : get_thread_id true 1
            ∉ threads_of (get_location "a.cpp" "main") (s_start_times 0 initial_world)).
  { apply not_elem_of_dom. reflexivity. }
  split; [exact Hfresh |].
  destruct (clock_stop_unmatched_inserts true steady_ticks 0 "a.cpp" "main" 12 1
              initial_world Hfresh) as (_ & _ & _ & _ & Hgrew & _).
  exact Hgrew.
Defined.

(** C3.  In a program of two translation units, a start and a stop of
    one function need not meet.  Here the two starts of [void g()] run
    the copy of [clock_start] that was compiled in unit 0 and the two
    stops that follow, on the same call site and thread, the copy of
    [clock_stop] that was compiled in unit 1.  Both stops return 0 and
    report nothing, and both timers are still on their stack in the
    registry of unit 0. *)
Theorem nested_stops_miss_the_starts_of_another_unit :
  let wA := clock_start true steady_ticks 0 "b.cpp" "void g()" 10 1 initial_world in
  let wB := clock_start true steady_ticks 0 "b.cpp" "void g()" 11 1 wA in
  let stop1 := clock_stop true steady_ticks 1 "b.cpp" "void g()" 12 1 wB in
  let stop2 := clock_stop true steady_ticks 1 "b.cpp" "void g()" 13 1 (snd stop1) in
  fst stop1 = 0
  ∧ fst stop2 = 0
  ∧ stderr (snd stop2) = []
  ∧ stack_at "b.cpp::void g()" 1 (s_start_times 0 (snd stop2))
    = [mkTimer 1007 11; mkTimer 1000 10]
  ∧ stack_at "b.cpp::void g()" 1 (s_start_times 1 (snd stop2)) = [].
Proof. vm_compute. repeat split. Qed.

Lemma nested_stops_are_lifo_witness :
  let at_key w :=
    stack_at (get_location "a.cpp" "main") (get_thread_id true 1)
      (s_start_times 0 w) in
  let wA := initial_world in
  let wB := clock_start true steady_ticks 0 "a.cpp" "main" 10 1 wA in
  let w1 := clock_start true steady_ticks 0 "a.cpp" "main" 11 1 wB in
  let w2 := snd (clock_stop true steady_ticks 0 "a.cpp" "main" 12 1 w1) in
  at_key wB = at_key (clock_start true steady_ticks 0 "a.cpp" "main" 10 1 wA)
  ∧ at_key w1 = at_key (clock_start true steady_ticks 0 "a.cpp" "main" 11 1 wB)
  ∧ at_key w2 = at_key (snd (clock_stop true steady_ticks 0 "a.cpp" "main" 12 1 w1))
  ∧ at_key w1 = [mkTimer 1007 11; mkTimer 1000 10]
  ∧ at_key w2 = [mkTimer 1000 10]
  ∧ at_key (snd (clock_stop true steady_ticks 0 "a.cpp" "main" 13 1 w2)) = [].
Proof.
  intros at_key wA wB w1 w2.
  do 3 (split; [reflexivity |]).
  destruct (nested_stops_are_lifo true steady_ticks 0 "a.cpp" "main" 10 11 12 13 1
              wA wB w1 w2 eq_refl eq_refl eq_refl)
    as (Hpushed & Hpop1 & _ & _ & Hpop2 & _).
  split; [exact Hpushed |]. split; [exact Hpop1 | exact Hpop2].
Defined.

Lemma get_location_truncates_witness :
  (String.length ("a.cpp" +:+ "::" +:+ "main") <= 127)%nat
  ∧ get_location "a.cpp" "main" = "a.cpp::main".
Proof.
  split; [vm_compute; lia |].
  destruct (get_location_truncates "a.cpp" "main") as (_ & _ & Hall & _).
  apply Hall. vm_compute. lia.
Defined.

(** C4, as stated, fails on a signature that does not fit the buffer: the
    identity is not the whole concatenation, and two call sites whose
    concatenations differ get the same identity. *)
Lemma get_location_long_signatures_collide :
  get_location "main.cpp" long_signature
    ≠ "main.cpp" +:+ "::" +:+ long_signature
  ∧ "main.cpp" +:+ "::" +:+ long_signature
    ≠ "main.cpp" +:+ "::" +:+ long_signature'
  ∧ get_location "main.cpp" long_signature
    = get_location "main.cpp" long_signature'.
Proof.
  split; [| split].
  - apply String.eqb_neq. vm_compute. reflexivity.
  - apply String.eqb_neq. vm_compute. reflexivity.
  - vm_compute. reflexivity.
Qed.

(** C5, as stated, fails inside [clock_start]: the timer is on its stack
    with the epoch as timestamp before the clock reading is stored in it. *)
Lemma timer_stamped_after_push :
  let pushed := clock_start_emplace true 0 "a.cpp" "main" 10 1 initial_world in
  let started := clock_start true steady_ticks 0 "a.cpp" "main" 10 1 initial_world in
  started = clock_start_stamp true steady_ticks 0 "a.cpp" "main" 1 pushed
  ∧ head (stack_at "a.cpp::main" 1 (s_start_times 0 pushed)) = Some (mkTimer 0 10)
  ∧ head (stack_at "a.cpp::main" 1 (s_start_times 0 started))
    = Some (mkTimer 1000 10)
  ∧ head (stack_at "a.cpp::main" 1 (s_start_times 0 pushed))
    ≠ head (stack_at "a.cpp::main" 1 (s_start_times 0 started)).
Proof.
  intros pushed started.
  split; [reflexivity |]. split; [reflexivity |]. split; [reflexivity |].
  vm_compute. discriminate.
Qed.

Lemma clock_func_exception_propagates_witness :
  let callable : Z -> Callable string Z := fun p w => (inl "bad_alloc"%string, w) in
  callable 4 (snd (Clock_now steady_ticks initial_world))
  = (inl "bad_alloc"%string, mkWorld ∅ [] 1)
  ∧ clock_func true steady_ticks callable "s.cpp" 31 "foo()" 4 1 initial_world
    = (inl "bad_alloc"%string, mkWorld ∅ [] 1).
Proof.
  intros callable. split; [reflexivity |].
  exact (clock_func_exception_propagates true steady_ticks callable "s.cpp" 31
           "foo()" 4 1 initial_world (inl "bad_alloc"%string) (mkWorld ∅ [] 1)
           eq_refl).
Defined.

Lemma clock_func_lambda_label_witness :
  let callable : bool -> Callable string Z := fun p w => (inr 0, w) in
  let f_name := "[&](bool x) -> int { return x; }()"%string in
  callable false (snd (Clock_now steady_ticks initial_world))
  = (inr 0, mkWorld ∅ [] 1)
  ∧ ∃ ns,
      stderr (snd (clock_func true steady_ticks callable "s.cpp" 33 f_name
                     false 1 initial_world))
      = [format_func (get_location "s.cpp" "lambda()") 33 (get_thread_id true 1) ns].
Proof.
  intros callable f_name. split; [reflexivity |].
  destruct (clock_func_lambda_label true steady_ticks callable "s.cpp" 33 f_name
              false 1 initial_world 0 (mkWorld ∅ [] 1) eq_refl)
    as (_ & Hlambda & _).
  apply Hlambda. left. reflexivity.
Defined.

Lemma clock_func_discards_result_witness :
  let callable : Z -> Callable string Z := fun p w => (inr (p + 1), w) in
  callable 4 (snd (Clock_now steady_ticks initial_world))
  = (inr 5, mkWorld ∅ [] 1)
  ∧ fst (clock_func true steady_ticks callable "s.cpp" 31 "foo()" 4 1 initial_world)
    = inr 7.
Proof.
  intros callable. split; [reflexivity |].
  destruct (clock_func_discards_result true steady_ticks (fun v : Z => v) callable
              "s.cpp" 31 "foo()" 4 1 initial_world) as [_ Hns].
  exact (Hns 5 (mkWorld ∅ [] 1) eq_refl).
Defined.

Lemma entries_never_removed_witness :
  let trace : list (Z * Op string) :=
    [(1, Start 0 "a.cpp" "main" 10);
     (2, Stop 0 "a.cpp" "main" 11);
     (1, Measure (fun (p : Z) w => (inr p, w)) "a.cpp" 12 "foo()" 4);
     (1, Stop 0 "a.cpp" "main" 13)] in
  Forall (fun so => op_keeps_entries (snd so)) trace
  ∧ entries_persist
      (s_start_times 0 (clock_start true steady_ticks 0 "b.cpp" "f" 3 2 initial_world))
      (s_start_times 0
         (run true steady_ticks trace
            (clock_start true steady_ticks 0 "b.cpp" "f" 3 2 initial_world))).
Proof.
  intros trace.
  assert (Hk : Forall (fun so => op_keeps_entries (snd so)) trace).
  { repeat (apply List.Forall_cons;
              [first [exact I | intros w tu; apply entries_persist_refl] |]).
    apply List.Forall_nil. }
  split; [exact Hk |].
  exact (proj1 (entries_never_removed true steady_ticks trace _ Hk) 0%nat).
Defined.

(** * Further properties of the header *)

(** ** Looking a key up *)

Lemma subscript_existing location thread_id (r : Registry) :
  thread_id ∈ threads_of location r → subscript location thread_id r = r.
Proof.
  unfold threads_of. intros Hin. apply elem_of_dom in Hin as [s Hs].
  unfold subscript, store_stack, stack_at. rewrite Hs. simpl.
  destruct (r !! location) as [m |] eqn:Hm; simpl in *.
  - rewrite (insert_id m thread_id s Hs). by apply insert_id.
  - by rewrite lookup_empty in Hs.
Qed.

(** A unit whose registry has an entry is listed in [statics]. *)
Lemma statics_existing tu location thread_id w :
  thread_id ∈ threads_of location (s_start_times tu w) →
  <[tu := s_start_times tu w]> (statics w) = statics w.
Proof.
  unfold s_start_times, threads_of. intros Hin.
  destruct (statics w !! tu) as [r |] eqn:Hr; simpl in *.
  - by apply insert_id.
  - rewrite lookup_empty in Hin. simpl in Hin. set_solver.
Qed.

Lemma wrap_signed_inj (a b : Z) :
  0 <= a < 2 ^ 64 → 0 <= b < 2 ^ 64 → wrap_signed 64 a = wrap_signed 64 b → a = b.
Proof.
  intros Ha Hb Heq. apply (f_equal (wrap_unsigned 64)) in Heq.
  rewrite !wrap_unsigned_signed in Heq.
  by rewrite !Z.mod_small in Heq.
Qed.

Lemma append_cancel_l (a b c : string) : a +:+ b = a +:+ c → b = c.
Proof.
  induction a as [| x a IH]; intros Heq; [done |].
  apply IH. by injection Heq.
Qed.

Section Further.

Variable pthread_h : bool.
Variable ticks : nat -> Z.

(** [clock_stop] uses the file and the function only through the identity. *)
Lemma clock_stop_by_location tu file function file' function' line self w :
  get_location file function = get_location file' function' →
  clock_stop pthread_h ticks tu file function line self w
  = clock_stop pthread_h ticks tu file' function' line self w.
Proof. intros Heq. unfold clock_stop. by rewrite Heq. Qed.

(** A stop that follows a start of the same call site, run by threads
    with the same thread id, both working on the registry of unit [tu]. *)
Lemma start_then_stop tu file function lineA lineB self1 self2 w :
  get_thread_id pthread_h self1 = get_thread_id pthread_h self2 →
  let location := get_location file function in
  let thread_id := get_thread_id pthread_h self1 in
  let ns :=
    (wrap_signed 64 (ticks (S (clock_reads w)))
     - wrap_signed 64 (ticks (clock_reads w))) mod 2 ^ 64 in
  clock_stop pthread_h ticks tu file function lineB self2
    (clock_start pthread_h ticks tu file function lineA self1 w)
  = (ns,
     mkWorld
       (<[tu := subscript location thread_id (s_start_times tu w)]> (statics w))
       (stderr w ++ [format_stop location lineA lineB thread_id ns])
       (S (S (clock_reads w)))).
Proof.
  intros Htid location thread_id ns.
  rewrite (clock_stop_cons pthread_h ticks tu file function lineB self2 _
             (mkTimer (wrap_signed 64 (ticks (clock_reads w))) lineA)
             (stack_at location thread_id (s_start_times tu w))).
  - rewrite clock_start_world; simpl. rewrite <- Htid.
    fold location thread_id.
    by rewrite s_start_times_set_eq, store_store, insert_insert_eq.
  - rewrite clock_start_world, stack_at_set. rewrite <- Htid.
    by rewrite decide_True.
Qed.

(** A stop that finds nothing under its key, right after a start under
    another key. *)
Lemma start_then_stop_elsewhere tu file function lineA self
    tu' file' function' lineB self' w :
  (tu, get_location file function, get_thread_id pthread_h self)
    ≠ (tu', get_location file' function', get_thread_id pthread_h self') →
  stack_at (get_location file' function') (get_thread_id pthread_h self')
    (s_start_times tu' w) = [] →
  let stopped :=
    clock_stop pthread_h ticks tu' file' function' lineB self'
      (clock_start pthread_h ticks tu file function lineA self w) in
  fst stopped = 0
  ∧ stderr (snd stopped) = stderr w
  ∧ stack_at (get_location file function) (get_thread_id pthread_h self)
      (s_start_times tu (snd stopped))
    = mkTimer (wrap_signed 64 (ticks (clock_reads w))) lineA
        :: stack_at (get_location file function) (get_thread_id pthread_h self)
             (s_start_times tu w).
Proof.
  intros Hne Hempty stopped.
  set (started := clock_start pthread_h ticks tu file function lineA self w) in *.
  assert (Hs : stack_at (get_location file' function')
                 (get_thread_id pthread_h self') (s_start_times tu' started)
               = []).
  { subst started. rewrite clock_start_world, stack_at_set.
    rewrite decide_False; [exact Hempty | congruence]. }
  subst stopped. rewrite (clock_stop_empty _ _ _ _ _ _ _ _ Hs); simpl.
  split; [done |]. split; [by subst started; rewrite clock_start_world |].
  unfold subscript. rewrite stack_at_set, Hs.
  rewrite decide_False by done.
  subst started. rewrite clock_start_world, stack_at_set.
  by rewrite decide_True.
Qed.

(** ** One key at a time *)

(** X1.  A start or a stop works on the stack of its own
    (unit, call-site, thread) key only: the stack of every other key, in
    the registry of the same unit and of every other, is after the
    operation what it was before, whether the stop found a timer or
    not. *)
Theorem operations_touch_only_their_key tu file function line self w
    tu' location' thread_id' :
  (tu, get_location file function, get_thread_id pthread_h self)
    ≠ (tu', location', thread_id') →
  stack_at location' thread_id'
    (s_start_times tu'
       (clock_start pthread_h ticks tu file function line self w))
  = stack_at location' thread_id' (s_start_times tu' w)
  ∧ stack_at location' thread_id'
      (s_start_times tu'
         (snd (clock_stop pthread_h ticks tu file function line self w)))
    = stack_at location' thread_id' (s_start_times tu' w).
Proof.
  intros Hne. split.
  - rewrite clock_start_world, stack_at_set.
    rewrite decide_False; [done | congruence].
  - destruct (stack_at (get_location file function)
                (get_thread_id pthread_h self) (s_start_times tu w))
      as [| start rest] eqn:Hs.
    + rewrite (clock_stop_empty _ _ _ _ _ _ _ _ Hs); simpl.
      unfold subscript. rewrite stack_at_set.
      rewrite decide_False; [done | congruence].
    + rewrite (clock_stop_cons _ _ _ _ _ _ _ _ _ _ Hs); simpl.
      rewrite stack_at_set. rewrite decide_False; [done | congruence].
Qed.

(** X2.  A start pushes and writes nothing.  When the stop that follows
    it in the same function on the same thread, at whatever line, works on
    the registry of the same unit as the start did, it pairs with it: it
    returns the difference of the two clock readings, reports the two
    lines, and puts the key's stack back as it was; that registry is back
    as it was when the key had an entry before, and has gained an empty
    one otherwise.  When the stop works on the registry of another unit
    and finds nothing there, it returns 0 and reports nothing, and the
    timer stays on its stack. *)
Theorem CLOCK_START_STOP_round_trip tu_start tu_stop
    (site_start site_stop : CallSite) self w :
  __FILE__ site_start = __FILE__ site_stop →
  __PRETTY_FUNCTION__ site_start = __PRETTY_FUNCTION__ site_stop →
  let location :=
    get_location (__FILE__ site_start) (__PRETTY_FUNCTION__ site_start) in
  let thread_id := get_thread_id pthread_h self in
  let started := CLOCK_START pthread_h ticks tu_start site_start self w in
  let stopped := CLOCK_STOP pthread_h ticks tu_stop site_stop self started in
  let ns :=
    (wrap_signed 64 (ticks (S (clock_reads w)))
     - wrap_signed 64 (ticks (clock_reads w))) mod 2 ^ 64 in
  stderr started = stderr w
  ∧ (tu_start = tu_stop →
     fst stopped = ns
     ∧ stderr (snd stopped)
       = stderr w
           ++ [format_stop location (__LINE__ site_start) (__LINE__ site_stop)
                 thread_id ns]
     ∧ stack_at location thread_id (s_start_times tu_start (snd stopped))
       = stack_at location thread_id (s_start_times tu_start w)
     ∧ (thread_id ∈ threads_of location (s_start_times tu_start w) →
        statics (snd stopped) = statics w)
     ∧ (thread_id ∉ threads_of location (s_start_times tu_start w) →
        s_start_times tu_start (snd stopped)
        = <[location := <[thread_id := []]>
                          (default ∅ (s_start_times tu_start w !! location))]>
            (s_start_times tu_start w)))
  ∧ (tu_start ≠ tu_stop →
     stack_at location thread_id (s_start_times tu_stop w) = [] →
     fst stopped = 0
     ∧ stderr (snd stopped) = stderr w
     ∧ stack_at location thread_id (s_start_times tu_start (snd stopped))
       = mkTimer (wrap_signed 64 (ticks (clock_reads w))) (__LINE__ site_start)
           :: stack_at location thread_id (s_start_times tu_start w)).
Proof.
  intros Hfile Hfun location thread_id started stopped ns.
  subst started stopped. unfold CLOCK_START, CLOCK_STOP.
  rewrite <- Hfile, <- Hfun.
  split; [by rewrite clock_start_world |]. split.
  - intros <-.
    rewrite (start_then_stop tu_start _ _ _ _ self self w eq_refl); simpl.
    fold location thread_id ns.
    split; [done |]. split; [done |].
    split; [by rewrite s_start_times_set_eq, stack_at_subscript |]. split.
    + intros Hin. rewrite subscript_existing by done.
      by apply (statics_existing tu_start location thread_id).
    + intros Hnew. rewrite s_start_times_set_eq. unfold subscript, store_stack.
      assert (Hs : stack_at location thread_id (s_start_times tu_start w) = []).
      { unfold stack_at. unfold threads_of in Hnew.
        apply not_elem_of_dom in Hnew. by rewrite Hnew. }
      by rewrite Hs.
  - intros Hne Hempty.
    apply start_then_stop_elsewhere; [congruence | exact Hempty].
Qed.

End Further.

(** ** Threads *)

(** X3.  Where [_PTHREAD_H] is not defined every thread has the thread id
    0, so within the registry of a unit the threads of a process share one
    stack per call site: a stop run by any thread pairs with the start run
    by any other when both work on the registry of the same unit [tu],
    and the report names thread 0. *)
Theorem threads_share_a_stack_without_pthreads ticks tu file function
    lineA lineB self1 self2 w :
  let location := get_location file function in
  let ns :=
    (wrap_signed 64 (ticks (S (clock_reads w)))
     - wrap_signed 64 (ticks (clock_reads w))) mod 2 ^ 64 in
  let stopped :=
    clock_stop false ticks tu file function lineB self2
      (clock_start false ticks tu file function lineA self1 w) in
  get_thread_id false self1 = get_thread_id false self2
  ∧ fst stopped = ns
  ∧ stderr (snd stopped)
    = stderr w ++ [format_stop location lineA lineB 0 ns]
  ∧ stack_at location 0 (s_start_times tu (snd stopped))
    = stack_at location 0 (s_start_times tu w).
Proof.
  intros location ns stopped. subst stopped.
  rewrite (start_then_stop false ticks tu file function lineA lineB self1 self2
             w eq_refl); simpl.
  fold location ns.
  split; [done |]. split; [done |]. split; [done |].
  by rewrite s_start_times_set_eq, stack_at_subscript.
Qed.

(** X4.  With pthreads, two threads whose [pthread_self()] differ have
    different thread ids, and so different stacks at every call site: a
    stop by a thread that has nothing in flight there returns 0 and
    reports nothing however many timers another thread has started, and
    that thread's stack keeps the timer it pushed.  This holds whichever
    units' registries the two calls work on. *)
Theorem threads_are_isolated_with_pthreads ticks tu1 tu2 file function
    lineA lineB self1 self2 w :
  0 <= self1 < 2 ^ 64 → 0 <= self2 < 2 ^ 64 → self1 ≠ self2 →
  stack_at (get_location file function) (get_thread_id true self2)
    (s_start_times tu2 w) = [] →
  let location := get_location file function in
  let started := clock_start true ticks tu1 file function lineA self1 w in
  let stopped := clock_stop true ticks tu2 file function lineB self2 started in
  get_thread_id true self1 ≠ get_thread_id true self2
  ∧ fst stopped = 0
  ∧ stderr (snd stopped) = stderr w
  ∧ stack_at location (get_thread_id true self1)
      (s_start_times tu1 (snd stopped))
    = mkTimer (wrap_signed 64 (ticks (clock_reads w))) lineA
        :: stack_at location (get_thread_id true self1) (s_start_times tu1 w).
Proof.
  intros H1 H2 Hne Hempty location started stopped.
  assert (Htid : get_thread_id true self1 ≠ get_thread_id true self2).
  { unfold get_thread_id. intros Heq. by apply Hne, wrap_signed_inj. }
  split; [exact Htid |].
  apply start_then_stop_elsewhere; [congruence | exact Hempty].
Qed.

(** X5.  The thread id goes through a [long] and is printed with [%lx]:
    what the report shows is the hexadecimal numeral of [pthread_self()]
    itself, for every value an [unsigned long] can take; without pthreads
    it is "0". *)
Theorem thread_id_is_printed_as_pthread_self (self : Z) :
  0 <= self < 2 ^ 64 →
  fmt_lx (get_thread_id true self)
  = HexadecimalString.NilZero.string_of_uint (N.to_hex_uint (Z.to_N self))
  ∧ fmt_lx (get_thread_id false self) = "0"%string.
Proof.
  intros Hself. split; [| reflexivity].
  unfold fmt_lx, get_thread_id.
  by rewrite wrap_unsigned_signed, Z.mod_small.
Qed.

Section Edges.

Variable pthread_h : bool.
Variable ticks : nat -> Z.

(** ** Stops that find nothing *)

(** X6.  A stop that finds an empty stack under a key that already has
    an entry leaves the registries, of its unit and of all others, exactly
    as they are; and a second such stop changes nothing either. *)
Theorem unmatched_stop_leaves_existing_entry tu file function line line' self w :
  get_thread_id pthread_h self
    ∈ threads_of (get_location file function) (s_start_times tu w) →
  stack_at (get_location file function) (get_thread_id pthread_h self)
    (s_start_times tu w) = [] →
  let once := snd (clock_stop pthread_h ticks tu file function line self w) in
  let twice :=
    snd (clock_stop pthread_h ticks tu file function line' self once) in
  statics once = statics w
  ∧ statics twice = statics w
  ∧ stderr twice = stderr w.
Proof.
  intros Hin Hs once twice.
  assert (Honce : once = mkWorld (statics w) (stderr w) (S (clock_reads w))).
  { subst once. rewrite (clock_stop_empty _ _ _ _ _ _ _ _ Hs); simpl.
    rewrite subscript_existing by done.
    by rewrite (statics_existing tu _ _ w Hin). }
  subst twice. rewrite Honce.
  rewrite (clock_stop_empty pthread_h ticks tu file function line' self
             (mkWorld (statics w) (stderr w) (S (clock_reads w))) Hs).
  simpl.
  change (s_start_times tu (mkWorld (statics w) (stderr w) (S (clock_reads w))))
    with (s_start_times tu w).
  rewrite subscript_existing by done.
  by rewrite (statics_existing tu _ _ w Hin).
Qed.

(** ** A clock that goes backwards *)

(** X7.  The difference of the readings is a signed [long] that is
    returned as an [unsigned long long]: when the clock reads less at the
    stop than it did at the start, the stop does not return a negative
    number or 0 but 2^64 minus the distance, and reports that number. *)
Theorem clock_stop_when_the_clock_went_back tu file function line self w
    start rest :
  stack_at (get_location file function) (get_thread_id pthread_h self)
    (s_start_times tu w) = start :: rest →
  m_time start < 2 ^ 63 →
  wrap_signed 64 (ticks (clock_reads w)) < m_time start →
  let back := m_time start - wrap_signed 64 (ticks (clock_reads w)) in
  let stopped := clock_stop pthread_h ticks tu file function line self w in
  fst stopped = 2 ^ 64 - back
  ∧ 0 < fst stopped
  ∧ stderr (snd stopped)
    = stderr w
        ++ [format_stop (get_location file function) (m_line start) line
              (get_thread_id pthread_h self) (2 ^ 64 - back)].
Proof.
  intros Hs Hhi Hback back stopped. subst stopped.
  rewrite (clock_stop_cons _ _ _ _ _ _ _ _ _ _ Hs); simpl.
  pose proof (wrap_signed_range (ticks (clock_reads w))) as Hn.
  assert (Hmod : (wrap_signed 64 (ticks (clock_reads w)) - m_time start)
                   mod 2 ^ 64 = 2 ^ 64 - back).
  { subst back. symmetry. apply Z.mod_unique_pos with (q := -1).
    - change (2 ^ 64) with (2 * 2 ^ 63). lia.
    - lia. }
  rewrite Hmod. repeat split. subst back. change (2 ^ 64) with (2 * 2 ^ 63). lia.
Qed.

(** X8.  What [clock_func] returns when the callable returns is the
    reading after the call minus the reading before it when the clock has
    not gone back, and 2^64 minus the distance when it has; it is the
    number shown in the one line that [clock_func] adds to what the
    callable wrote. *)
Theorem clock_func_duration {E P R} (callable : P -> Callable E R)
    file line f_name params self w v w2 :
  callable params (snd (Clock_now ticks w)) = (inr v, w2) →
  let before := wrap_signed 64 (ticks (clock_reads w)) in
  let after := wrap_signed 64 (ticks (clock_reads w2)) in
  let measured :=
    clock_func pthread_h ticks callable file line f_name params self w in
  ∃ ns,
    fst measured = inr ns
    ∧ 0 <= ns < 2 ^ 64
    ∧ (before <= after → ns = after - before)
    ∧ (after < before → ns = 2 ^ 64 - (before - after))
    ∧ ∃ location,
        stderr (snd measured)
        = stderr w2
            ++ [format_func location line (get_thread_id pthread_h self) ns].
Proof.
  intros Hc before after measured. subst measured.
  rewrite clock_func_world, Hc. simpl. fold before after.
  pose proof (wrap_signed_range (ticks (clock_reads w))) as Hb.
  pose proof (wrap_signed_range (ticks (clock_reads w2))) as Ha.
  fold before in Hb. fold after in Ha.
  exists ((after - before) mod 2 ^ 64).
  split; [done |].
  split; [apply Z.mod_pos_bound; lia |].
  split; [| split].
  - intros Hle. apply Z.mod_small. change (2 ^ 64) with (2 * 2 ^ 63). lia.
  - intros Hlt. symmetry. apply Z.mod_unique_pos with (q := -1).
    + change (2 ^ 64) with (2 * 2 ^ 63). lia.
    + lia.
  - eauto.
Qed.

(** ** Which call sites share a stack *)

(** X9.  Two functions of one file whose identities fit the buffer have
    different identities: a stop in one of them does not see a start made
    in the other.  With nothing of its own in flight it returns 0 and
    reports nothing, and the other function's timer stays on its stack.
    This holds whichever units' registries the two calls work on. *)
Theorem functions_of_a_file_do_not_pair tu1 tu2 file f g lineA lineB self w :
  (String.length (file +:+ "::" +:+ f) <= 127)%nat →
  (String.length (file +:+ "::" +:+ g) <= 127)%nat →
  f ≠ g →
  stack_at (get_location file g) (get_thread_id pthread_h self)
    (s_start_times tu2 w) = [] →
  let started := clock_start pthread_h ticks tu1 file f lineA self w in
  let stopped := clock_stop pthread_h ticks tu2 file g lineB self started in
  get_location file f ≠ get_location file g
  ∧ fst stopped = 0
  ∧ stderr (snd stopped) = stderr w
  ∧ stack_at (get_location file f) (get_thread_id pthread_h self)
      (s_start_times tu1 (snd stopped))
    = mkTimer (wrap_signed 64 (ticks (clock_reads w))) lineA
        :: stack_at (get_location file f) (get_thread_id pthread_h self)
             (s_start_times tu1 w).
Proof.
  intros Hf Hg Hne Hempty started stopped.
  assert (Hloc : get_location file f ≠ get_location file g).
  { unfold get_location, snprintf_loc. change (128 - 1)%nat with 127%nat.
    rewrite !substring_0_all by done. intros Heq.
    apply Hne. by apply append_cancel_l in Heq; apply append_cancel_l in Heq. }
  split; [exact Hloc |].
  apply start_then_stop_elsewhere; [congruence | exact Hempty].
Qed.

(** X10.  Two functions of one file whose file-and-signature strings
    agree on their first 127 characters have one identity, and so one
    stack in the registry of a unit: a stop in the one pairs with a start
    made in the other when both work on the registry of the same unit
    [tu], and reports it under the common identity. *)
Theorem functions_with_a_common_prefix_pair tu file f g lineA lineB self w :
  (∀ i, (i < 127)%nat →
     String.get i (file +:+ "::" +:+ f) = String.get i (file +:+ "::" +:+ g)) →
  let ns :=
    (wrap_signed 64 (ticks (S (clock_reads w)))
     - wrap_signed 64 (ticks (clock_reads w))) mod 2 ^ 64 in
  let stopped :=
    clock_stop pthread_h ticks tu file g lineB self
      (clock_start pthread_h ticks tu file f lineA self w) in
  get_location file f = get_location file g
  ∧ fst stopped = ns
  ∧ stderr (snd stopped)
    = stderr w
        ++ [format_stop (get_location file f) lineA lineB
              (get_thread_id pthread_h self) ns]
  ∧ stack_at (get_location file f) (get_thread_id pthread_h self)
      (s_start_times tu (snd stopped))
    = stack_at (get_location file f) (get_thread_id pthread_h self)
        (s_start_times tu w).
Proof.
  intros Hprefix ns stopped. subst stopped.
  assert (Hloc : get_location file g = get_location file f).
  { unfold get_location, snprintf_loc. change (128 - 1)%nat with 127%nat.
    symmetry. by apply substring_0_eq_iff. }
  split; [done |].
  rewrite (clock_stop_by_location pthread_h ticks tu file g file f lineB self _ Hloc).
  rewrite (start_then_stop pthread_h ticks tu file f lineA lineB self self w eq_refl).
  simpl. fold ns.
  split; [done |]. split; [done |].
  by rewrite s_start_times_set_eq, stack_at_subscript.
Qed.

End Edges.

(** ** Counting timers and reports *)

Lemma map_fold_weight_insert `{Countable K} {A} (wt : A → nat)
    (m : gmap K A) (i : K) (x : A) :
  (map_fold (fun _ a n => wt a + n) 0 (<[i := x]> m)
   + from_option wt 0 (m !! i)
   = map_fold (fun _ a n => wt a + n) 0 m + wt x)%nat.
Proof.
  destruct (m !! i) as [y |] eqn:Hi; simpl.
  - rewrite <- (insert_delete_eq m i x).
    rewrite map_fold_insert_L; [| intros; lia | apply lookup_delete_eq].
    rewrite (map_fold_delete_L _ _ i y m); [lia | intros; lia | done].
  - rewrite map_fold_insert_L; [lia | intros; lia | done].
Qed.

Lemma in_flight_store location thread_id s (r : Registry) :
  (in_flight (store_stack location thread_id s r)
   + length (stack_at location thread_id r)
   = in_flight r + length s)%nat.
Proof.
  unfold in_flight, store_stack, stack_at.
  pose proof (map_fold_weight_insert in_flight_at r location
                (<[thread_id := s]> (default ∅ (r !! location)))) as Hout.
  pose proof (map_fold_weight_insert (length (A := Timer))
                (default ∅ (r !! location)) thread_id s) as Hin.
  fold (in_flight_at (<[thread_id := s]> (default ∅ (r !! location)))) in Hin.
  fold (in_flight_at (default ∅ (r !! location))) in Hin.
  assert (Hd : from_option in_flight_at 0%nat (r !! location)
               = in_flight_at (default ∅ (r !! location))).
  { destruct (r !! location); [done |]. simpl. unfold in_flight_at.
    by rewrite map_fold_empty. }
  assert (Hl : from_option length 0%nat (default ∅ (r !! location) !! thread_id)
               = length (default [] (default ∅ (r !! location) !! thread_id))).
  { by destruct (default ∅ (r !! location) !! thread_id). }
  rewrite Hd in Hout. rewrite Hl in Hin. lia.
Qed.

Lemma timers_in_flight_set tu location thread_id st w e c :
  (timers_in_flight
     (mkWorld
        (<[tu := store_stack location thread_id st (s_start_times tu w)]>
           (statics w)) e c)
   + length (stack_at location thread_id (s_start_times tu w))
   = timers_in_flight w + length st)%nat.
Proof.
  unfold timers_in_flight. simpl.
  pose proof (map_fold_weight_insert in_flight (statics w) tu
                (store_stack location thread_id st (s_start_times tu w)))
    as Hout.
  pose proof (in_flight_store location thread_id st (s_start_times tu w)) as Hin.
  assert (Hd : from_option in_flight 0%nat (statics w !! tu)
               = in_flight (s_start_times tu w)).
  { unfold s_start_times. destruct (statics w !! tu); [done |]. simpl.
    unfold in_flight. by rewrite map_fold_empty. }
  rewrite Hd in Hout. lia.
Qed.

Lemma run_app {E} pthread_h ticks (t1 t2 : list (Z * Op E)) w :
  run pthread_h ticks (t1 ++ t2) w
  = run pthread_h ticks t2 (run pthread_h ticks t1 w).
Proof. unfold run. apply fold_left_app. Qed.

Section Counting.

Variable pthread_h : bool.
Variable ticks : nat -> Z.

Lemma start_stop_account {E} self (op : Op E) w :
  is_measure op = false →
  let w' := run_op pthread_h ticks self op w in
  (timers_in_flight w' + length (stderr w')
   = timers_in_flight w + length (stderr w)
     + (if is_start op then 1 else 0))%nat
  ∧ stderr w `prefix_of` stderr w'
  ∧ clock_reads w' = S (clock_reads w).
Proof.
  destruct op as [tu file function line | tu file function line
                 | P R callable file line f_name params]; simpl; [| | done];
    intros _.
  - rewrite clock_start_world.
    pose proof (timers_in_flight_set tu (get_location file function)
                  (get_thread_id pthread_h self)
                  (mkTimer (wrap_signed 64 (ticks (clock_reads w))) line
                     :: stack_at (get_location file function)
                          (get_thread_id pthread_h self) (s_start_times tu w))
                  w (stderr w) (S (clock_reads w))) as Hst.
    simpl in *. split; [lia | done].
  - destruct (stack_at (get_location file function)
                (get_thread_id pthread_h self) (s_start_times tu w))
      as [| start rest] eqn:Hs.
    + rewrite (clock_stop_empty _ _ _ _ _ _ _ _ Hs).
      pose proof (timers_in_flight_set tu (get_location file function)
                    (get_thread_id pthread_h self) [] w (stderr w)
                    (S (clock_reads w))) as Hst.
      unfold subscript. rewrite Hs in *. simpl in *. split; [lia | done].
    + rewrite (clock_stop_cons _ _ _ _ _ _ _ _ _ _ Hs).
      pose proof (timers_in_flight_set tu (get_location file function)
                    (get_thread_id pthread_h self) rest w
                    (stderr w
                       ++ [format_stop (get_location file function)
                             (m_line start) line (get_thread_id pthread_h self)
                             ((wrap_signed 64 (ticks (clock_reads w))
                               - m_time start) mod 2 ^ 64)])
                    (S (clock_reads w))) as Hst.
      rewrite Hs in Hst. simpl in *. rewrite length_app. simpl.
      split; [lia |]. split; [by apply prefix_app_r | done].
Qed.

(** X11.  Over any sequence of starts and stops, by any threads at any
    call sites and on the registries of any units, every timer a start
    has pushed is either still in a registry or has been reported, once:
    the timers in flight plus the lines on stderr grow by exactly the
    number of starts.  Lines already written stay, and the clock is read
    once per operation. *)
Theorem started_timers_are_in_flight_or_reported {E} (trace : list (Z * Op E)) w :
  Forall (fun so => is_measure (snd so) = false) trace →
  let w' := run pthread_h ticks trace w in
  (timers_in_flight w' + length (stderr w')
   = timers_in_flight w + length (stderr w)
     + sum_list_with (fun so => if is_start (snd so) then 1 else 0) trace)%nat
  ∧ stderr w `prefix_of` stderr w'
  ∧ clock_reads w' = (clock_reads w + length trace)%nat.
Proof.
  intros Hk. revert w.
  induction Hk as [| [self op] trace Hop _ IH]; intros w; simpl.
  - split; [lia |]. split; [done | lia].
  - destruct (start_stop_account self op w Hop) as (Hacc & Hpre & Hreads).
    destruct (IH (run_op pthread_h ticks self op w)) as (Hacc' & Hpre' & Hreads').
    simpl in *. split; [lia |]. split; [by etrans | lia].
Qed.

End Counting.

(** ** The shape of a report *)

Lemma append_assoc' (a b c : string) : (a +:+ b) +:+ c = a +:+ (b +:+ c).
Proof.
  induction a as [| x a IH]; [done |].
  change (String x ((a +:+ b) +:+ c) = String x (a +:+ (b +:+ c))).
  by rewrite IH.
Qed.

Lemma count_char_app (c : ascii) (a b : string) :
  count_char c (a +:+ b) = (count_char c a + count_char c b)%nat.
Proof.
  induction a as [| x a IH]; [done |].
  change (count_char c (String x (a +:+ b))
          = (count_char c (String x a) + count_char c b)%nat).
  simpl. rewrite IH. lia.
Qed.

Lemma count_char_substring (c : ascii) (n : nat) (s : string) :
  (count_char c (substring 0 n s) <= count_char c s)%nat.
Proof.
  revert s. induction n as [| n IH]; intros [| x s]; simpl; try lia.
  specialize (IH s). lia.
Qed.

Lemma count_newline_decimal (d : Decimal.uint) :
  count_char "010" (DecimalString.NilZero.string_of_uint d) = 0%nat.
Proof.
  assert (Hne : ∀ d', count_char "010" (DecimalString.NilEmpty.string_of_uint d')
                      = 0%nat).
  { induction d'; simpl; auto. }
  destruct d; try apply Hne. reflexivity.
Qed.

Lemma count_newline_hexadecimal (d : Hexadecimal.uint) :
  count_char "010" (HexadecimalString.NilZero.string_of_uint d) = 0%nat.
Proof.
  assert (Hne : ∀ d',
            count_char "010" (HexadecimalString.NilEmpty.string_of_uint d')
            = 0%nat).
  { induction d'; simpl; auto. }
  destruct d; try apply Hne. reflexivity.
Qed.

Lemma count_newline_location (file function : string) :
  count_char "010" file = 0%nat → count_char "010" function = 0%nat →
  count_char "010" (get_location file function) = 0%nat.
Proof.
  intros Hfile Hfun. unfold get_location, snprintf_loc.
  change (128 - 1)%nat with 127%nat.
  pose proof (count_char_substring "010" 127
                (file +:+ "::" +:+ function)) as Hle.
  rewrite !count_char_app, Hfile, Hfun in Hle.
  change (count_char "010" "::") with 0%nat in Hle. lia.
Qed.

Lemma format_stop_one_line location start_line line thread_id diff :
  count_char "010" location = 0%nat →
  ∃ body,
    format_stop location start_line line thread_id diff = body +:+ NL
    ∧ count_char "010" body = 0%nat.
Proof.
  intros Hloc. unfold format_stop.
  exists ("[CLOCK]" +:+ TAB +:+ location +:+ TAB +:+ "lines "
            +:+ fmt_u start_line +:+ "-" +:+ fmt_u line +:+ " [thread "
            +:+ fmt_lx thread_id +:+ "]:" +:+ TAB +:+ fmt_lu diff +:+ " ns").
  split.
  - by rewrite !append_assoc'.
  - rewrite !count_char_app, Hloc. unfold fmt_u, fmt_lu, fmt_lx.
    by rewrite !count_newline_decimal, count_newline_hexadecimal.
Qed.

Lemma format_func_one_line location line thread_id diff :
  count_char "010" location = 0%nat →
  ∃ body,
    format_func location line thread_id diff = body +:+ NL
    ∧ count_char "010" body = 0%nat.
Proof.
  intros Hloc. unfold format_func.
  exists ("[CLOCK]" +:+ TAB +:+ location +:+ TAB +:+ "line "
            +:+ fmt_u line +:+ " [thread "
            +:+ fmt_lx thread_id +:+ "]:" +:+ TAB +:+ fmt_lu diff +:+ " ns").
  split.
  - by rewrite !append_assoc'.
  - rewrite !count_char_app, Hloc. unfold fmt_u, fmt_lu, fmt_lx.
    by rewrite !count_newline_decimal, count_newline_hexadecimal.
Qed.

Section Reports.

Variable pthread_h : bool.
Variable ticks : nat -> Z.

(** X12.  As long as the file name and the function signature (for
    [clock_func], the display name) contain no newline, what a stop or a
    measurement writes is one line: a text without newline followed by
    one newline.  So the lines of stderr and the reports correspond one to
    one. *)
Theorem a_report_is_one_line tu file function line self w :
  count_char "010" file = 0%nat →
  count_char "010" function = 0%nat →
  (∀ start rest,
     stack_at (get_location file function) (get_thread_id pthread_h self)
       (s_start_times tu w) = start :: rest →
     ∃ body,
       stderr (snd (clock_stop pthread_h ticks tu file function line self w))
       = stderr w ++ [body +:+ NL]
       ∧ count_char "010" body = 0%nat)
  ∧ (∀ (E P R : Type) (callable : P -> Callable E R) params v w2,
       callable params (snd (Clock_now ticks w)) = (inr v, w2) →
       ∃ body,
         stderr
           (snd (clock_func pthread_h ticks callable file line function
                   params self w))
         = stderr w2 ++ [body +:+ NL]
         ∧ count_char "010" body = 0%nat).
Proof.
  intros Hfile Hfun. split.
  - intros start rest Hs.
    rewrite (clock_stop_cons _ _ _ _ _ _ _ _ _ _ Hs); simpl.
    destruct (format_stop_one_line (get_location file function) (m_line start)
                line (get_thread_id pthread_h self)
                ((wrap_signed 64 (ticks (clock_reads w)) - m_time start)
                   mod 2 ^ 64)
                (count_newline_location _ _ Hfile Hfun)) as (body & -> & Hbody).
    eauto.
  - intros E P R callable params v w2 Hc. rewrite clock_func_world, Hc; simpl.
    match goal with
    | |- context [format_func ?loc ?l ?t ?d] =>
        destruct (format_func_one_line loc l t d) as (body & -> & Hbody)
    end; [| eauto].
    apply count_newline_location; [done |].
    by destruct (ptr_to_bool (strchr function "[")).
Qed.

End Reports.

(** ** Nesting of any depth *)

Lemma nth_imap {A B} (g : nat → A → B) (l : list A) (j : nat) (d : B) (d' : A) :
  (j < length l)%nat → nth j (imap g l) d = g j (nth j l d').
Proof.
  revert g j. induction l as [| x l IH]; intros g j Hj; simpl in *; [lia |].
  destruct j as [| j]; [done |]. apply (IH (g ∘ S) j). lia.
Qed.

Section Nesting.

Variable pthread_h : bool.
Variable ticks : nat -> Z.
Variable E : Type.

Let reading (n : nat) : TimePoint := wrap_signed 64 (ticks n).

Lemma run_cons (so : Z * Op E) (trace : list (Z * Op E)) w :
  run pthread_h ticks (so :: trace) w
  = run pthread_h ticks trace (run_op pthread_h ticks (fst so) (snd so) w).
Proof. reflexivity. Qed.

Lemma run_starts tu file function self (ls : list Z) w :
  let w' :=
    run pthread_h ticks
      ((fun l => (self, Start (E := E) tu file function l)) <$> ls) w in
  stack_at (get_location file function) (get_thread_id pthread_h self)
    (s_start_times tu w')
  = rev (imap (fun i l => mkTimer (reading (clock_reads w + i)) l) ls)
      ++ stack_at (get_location file function) (get_thread_id pthread_h self)
           (s_start_times tu w)
  ∧ stderr w' = stderr w
  ∧ clock_reads w' = (clock_reads w + length ls)%nat.
Proof.
  revert w. induction ls as [| l ls IH]; intros w.
  - simpl. split; [done |]. split; [done | lia].
  - rewrite fmap_cons. cbv zeta. rewrite run_cons. simpl fst. simpl snd.
    unfold run_op.
    destruct (IH (clock_start pthread_h ticks tu file function l self w))
      as (Hst & Herr & Hreads).
    rewrite Hst, Herr, Hreads. rewrite clock_start_world, stack_at_set.
    rewrite decide_True by done. simpl.
    split; [| split; [done | lia]].
    rewrite <- app_assoc. simpl. f_equal.
    + f_equal. apply imap_ext. intros i x _. simpl.
      by rewrite Nat.add_succ_r.
    + by rewrite Nat.add_0_r.
Qed.

Lemma run_stops tu file function self (sl : list Z) :
  ∀ (ts rest : Stack) w,
    stack_at (get_location file function) (get_thread_id pthread_h self)
      (s_start_times tu w) = ts ++ rest →
    length ts = length sl →
    let w' :=
      run pthread_h ticks
        ((fun l => (self, Stop (E := E) tu file function l)) <$> sl) w in
    stack_at (get_location file function) (get_thread_id pthread_h self)
      (s_start_times tu w') = rest
    ∧ stderr w'
      = stderr w
          ++ imap (fun i l =>
                     format_stop (get_location file function)
                       (m_line (nth i ts (mkTimer 0 0))) l
                       (get_thread_id pthread_h self)
                       ((reading (clock_reads w + i)
                         - m_time (nth i ts (mkTimer 0 0))) mod 2 ^ 64)) sl
    ∧ clock_reads w' = (clock_reads w + length sl)%nat.
Proof.
  induction sl as [| l sl IH]; intros ts rest w Hs Hlen.
  - destruct ts; [| done]. simpl in *.
    split; [done |]. split; [by rewrite app_nil_r | lia].
  - destruct ts as [| t ts]; [done |].
    rewrite fmap_cons. cbv zeta. rewrite run_cons. simpl fst. simpl snd.
    unfold run_op. simpl in Hs.
    rewrite (clock_stop_cons _ _ _ _ _ _ _ _ _ _ Hs). simpl snd.
    match goal with
    | |- context [run _ _ _ ?w1] =>
        destruct (IH ts rest w1) as (Hst & Herr & Hreads)
    end.
    + rewrite stack_at_set. by rewrite decide_True.
    + simpl in Hlen. lia.
    + rewrite Hst, Herr, Hreads. simpl.
      split; [done |]. split; [| lia].
      rewrite <- app_assoc. simpl. f_equal.
      rewrite Nat.add_0_r. unfold reading. f_equal.
      apply imap_ext. intros i x _. simpl. by rewrite Nat.add_succ_r.
Qed.

(** X13.  However deep the nesting: after starts at the lines [ls] and as
    many stops at the lines [sl], all by one thread at one call site and
    all working on the registry of one unit [tu], the stops have unwound
    the starts in reverse.  The i-th stop reports the line of the i-th
    start counted from the last, with the time since that start's reading;
    the stack is as it was before the first start. *)
Theorem nested_stops_unwind_in_reverse tu file function self (ls sl : list Z) w :
  length ls = length sl →
  let location := get_location file function in
  let thread_id := get_thread_id pthread_h self in
  let n := length ls in
  let c := clock_reads w in
  let w' :=
    run pthread_h ticks
      (((fun l => (self, Start (E := E) tu file function l)) <$> ls)
         ++ ((fun l => (self, Stop tu file function l)) <$> sl)) w in
  stack_at location thread_id (s_start_times tu w')
  = stack_at location thread_id (s_start_times tu w)
  ∧ stderr w'
    = stderr w
        ++ imap (fun i l =>
                   format_stop location (nth i (rev ls) 0) l thread_id
                     ((wrap_signed 64 (ticks (c + n + i))
                       - wrap_signed 64 (ticks (c + (n - 1 - i)))) mod 2 ^ 64))
             sl.
Proof.
  intros Hlen location thread_id n c w'. subst w'. rewrite run_app.
  destruct (run_starts tu file function self ls w) as (Hst & Herr & Hreads).
  cbv zeta in Hst, Herr, Hreads.
  set (w1 := run pthread_h ticks
               ((fun l => (self, Start (E := E) tu file function l)) <$> ls) w)
    in *.
  destruct (run_stops tu file function self sl
              (rev (imap (fun i l => mkTimer (reading (clock_reads w + i)) l) ls))
              (stack_at location thread_id (s_start_times tu w)) w1 Hst)
    as (Hst' & Herr' & _).
  { by rewrite length_rev, length_imap. }
  cbv zeta in Hst', Herr'. split; [exact Hst' |].
  rewrite Herr', Herr, Hreads. f_equal.
  apply imap_ext. intros i l Hi.
  assert (Hin : (i < n)%nat).
  { subst n. rewrite Hlen. by apply lookup_lt_Some in Hi. }
  rewrite rev_nth by (rewrite length_imap; exact Hin).
  rewrite length_imap.
  rewrite (nth_imap _ ls _ _ 0) by (fold n; lia).
  simpl. rewrite rev_nth by exact Hin. fold n c. unfold reading.
  replace (n - S i)%nat with (n - 1 - i)%nat by lia.
  done.
Qed.

End Nesting.

(** ** The CLOCK macro and the returned 0 *)

Lemma length_append' (a b : string) :
  String.length (a +:+ b) = (String.length a + String.length b)%nat.
Proof.
  induction a as [| x a IH]; [done |].
  change (S (String.length (a +:+ b)) = S (String.length a + String.length b)).
  by rewrite IH.
Qed.

Lemma list_ascii_of_append (a b : string) :
  list_ascii_of_string (a +:+ b)
  = list_ascii_of_string a ++ list_ascii_of_string b.
Proof.
  induction a as [| x a IH]; [done |].
  change (x :: list_ascii_of_string (a +:+ b)
          = x :: (list_ascii_of_string a ++ list_ascii_of_string b)).
  by rewrite IH.
Qed.

Lemma strchr_bracket_of_CLOCK_name (f_text : string) :
  ptr_to_bool (strchr (f_text +:+ "()") "[") = true
  ↔ In "["%char (list_ascii_of_string f_text).
Proof.
  rewrite (strchr_found (f_text +:+ "()") "[") by done.
  rewrite list_ascii_of_append, in_app_iff. simpl.
  split; [| tauto]. intros [Hin | [Hp | [Hp | []]]]; [done | |]; discriminate.
Qed.

Section Macros.

Variable pthread_h : bool.
Variable ticks : nat -> Z.

(** X14.  [CLOCK(f, ...)] names the callable by the spelling of [f]
    followed by "()".  When that spelling has no '[' and the identity fits
    the buffer, the report is filed under file::f(); when it has a '[',
    as a lambda expression has but also an indexed callable such as
    [handlers[0]], it is filed under file::lambda(). *)
Theorem CLOCK_names_the_callable {E P R} (f : P -> Callable E R)
    (f_text : string) params (site : CallSite) self w v w2 :
  f params (snd (Clock_now ticks w)) = (inr v, w2) →
  let w' := snd (CLOCK pthread_h ticks f f_text params site self w) in
  let report identity ns :=
    format_func identity (__LINE__ site) (get_thread_id pthread_h self) ns in
  (¬ In "["%char (list_ascii_of_string f_text) →
   (String.length (__FILE__ site) + String.length f_text + 4 <= 127)%nat →
   ∃ ns,
     stderr w'
     = stderr w2 ++ [report (__FILE__ site +:+ "::" +:+ f_text +:+ "()") ns])
  ∧ (In "["%char (list_ascii_of_string f_text) →
     (String.length (__FILE__ site) + 10 <= 127)%nat →
     ∃ ns,
       stderr w'
       = stderr w2 ++ [report (__FILE__ site +:+ "::" +:+ "lambda()") ns]).
Proof.
  intros Hc w' report. subst w'. unfold CLOCK.
  rewrite clock_func_world, Hc. simpl.
  pose proof (strchr_bracket_of_CLOCK_name f_text) as Hm.
  unfold get_location, snprintf_loc. change (128 - 1)%nat with 127%nat.
  split.
  - intros Hnot Hfit.
    destruct (ptr_to_bool (strchr (f_text +:+ "()") "[")) eqn:Hb.
    + destruct Hnot. by apply Hm.
    + rewrite substring_0_all; [eauto |].
      rewrite !length_append'. simpl. lia.
  - intros Hin Hfit. apply Hm in Hin. rewrite Hin.
    rewrite substring_0_all; [eauto |].
    rewrite !length_append'. simpl. lia.
Qed.

(** X15.  A returned 0 does not tell an unmatched stop from a matched
    one: when the clock reads at the stop what it read at the start, a
    matched stop returns 0 too, but it pops its timer and reports a line
    with 0 ns. *)
Theorem matched_stop_can_return_zero tu file function line self w start rest :
  stack_at (get_location file function) (get_thread_id pthread_h self)
    (s_start_times tu w) = start :: rest →
  m_time start = wrap_signed 64 (ticks (clock_reads w)) →
  let stopped := clock_stop pthread_h ticks tu file function line self w in
  fst stopped = 0
  ∧ stderr (snd stopped)
    = stderr w
        ++ [format_stop (get_location file function) (m_line start) line
              (get_thread_id pthread_h self) 0]
  ∧ stack_at (get_location file function) (get_thread_id pthread_h self)
      (s_start_times tu (snd stopped)) = rest.
Proof.
  intros Hs Hsame stopped. subst stopped.
  rewrite (clock_stop_cons _ _ _ _ _ _ _ _ _ _ Hs); simpl.
  rewrite Hsame, Z.sub_diag. change (0 mod 2 ^ 64) with 0.
  split; [done |]. split; [done |].
  rewrite stack_at_set. by rewrite decide_True.
Qed.

End Macros.

(** ** The further statements on concrete runs *)

Lemma operations_touch_only_their_key_witness :
  let w := clock_start true steady_ticks 0 "b.cpp" "f" 3 2 initial_world in
  (0%nat, get_location "a.cpp" "main", get_thread_id true 1)
    ≠ (0%nat, "b.cpp::f"%string, 2)
  ∧ stack_at "b.cpp::f" 2
      (s_start_times 0 (clock_start true steady_ticks 0 "a.cpp" "main" 10 1 w))
    = stack_at "b.cpp::f" 2 (s_start_times 0 w)
  ∧ stack_at "b.cpp::f" 2
      (s_start_times 0
         (snd (clock_stop true steady_ticks 0 "a.cpp" "main" 10 1 w)))
    = stack_at "b.cpp::f" 2 (s_start_times 0 w).
Proof.
  intros w.
  assert (Hne : (0%nat, get_location "a.cpp" "main", get_thread_id true 1)
                ≠ (0%nat, "b.cpp::f"%string, 2)).
  { vm_compute. discriminate. }
  split; [exact Hne |].
  exact (operations_touch_only_their_key true steady_ticks 0 "a.cpp" "main" 10 1
           w 0 "b.cpp::f" 2 Hne).
Defined.

Lemma CLOCK_START_STOP_round_trip_witness :
  let site_start := mkCallSite "main.cpp" "int main()" 20 in
  let site_stop := mkCallSite "main.cpp" "int main()" 22 in
  __FILE__ site_start = __FILE__ site_stop
  ∧ __PRETTY_FUNCTION__ site_start = __PRETTY_FUNCTION__ site_stop
  ∧ fst (CLOCK_STOP true steady_ticks 0 site_stop 1
           (CLOCK_START true steady_ticks 0 site_start 1 initial_world)) = 7
  ∧ 0%nat ≠ 1%nat
  ∧ stack_at (get_location "main.cpp" "int main()") (get_thread_id true 1)
      (s_start_times 1 initial_world) = []
  ∧ fst (CLOCK_STOP true steady_ticks 1 site_stop 1
           (CLOCK_START true steady_ticks 0 site_start 1 initial_world)) = 0.
Proof.
  intros site_start site_stop.
  split; [reflexivity |]. split; [reflexivity |].
  destruct (CLOCK_START_STOP_round_trip true steady_ticks 0 0 site_start site_stop
              1 initial_world eq_refl eq_refl) as (_ & Hsame & _).
  destruct (Hsame eq_refl) as (Hns & _).
  split; [exact Hns |].
  assert (Hunits : 0%nat ≠ 1%nat) by discriminate.
  split; [exact Hunits |]. split; [reflexivity |].
  destruct (CLOCK_START_STOP_round_trip true steady_ticks 0 1 site_start site_stop
              1 initial_world eq_refl eq_refl) as (_ & _ & Hother).
  destruct (Hother Hunits eq_refl) as (Hzero & _).
  exact Hzero.
Defined.

Lemma threads_are_isolated_with_pthreads_witness :
  0 <= 1 < 2 ^ 64 ∧ 0 <= 2 < 2 ^ 64 ∧ 1 ≠ 2
  ∧ stack_at (get_location "a.cpp" "main") (get_thread_id true 2)
      (s_start_times 0 initial_world) = []
  ∧ fst (clock_stop true steady_ticks 0 "a.cpp" "main" 12 2
           (clock_start true steady_ticks 0 "a.cpp" "main" 10 1 initial_world)) = 0.
Proof.
  assert (H1 : 0 <= 1 < 2 ^ 64) by (vm_compute; split; [discriminate | reflexivity]).
  assert (H2 : 0 <= 2 < 2 ^ 64) by (vm_compute; split; [discriminate | reflexivity]).
  assert (Hne : 1 ≠ 2) by discriminate.
  split; [exact H1 |]. split; [exact H2 |]. split; [exact Hne |].
  split; [reflexivity |].
  destruct (threads_are_isolated_with_pthreads steady_ticks 0 0 "a.cpp" "main" 10 12
              1 2 initial_world H1 H2 Hne eq_refl) as (_ & Hzero & _).
  exact Hzero.
Defined.

Lemma thread_id_is_printed_as_pthread_self_witness :
  0 <= 18446744073709551615 < 2 ^ 64
  ∧ get_thread_id true 18446744073709551615 = -1
  ∧ fmt_lx (get_thread_id true 18446744073709551615) = "ffffffffffffffff"%string.
Proof.
  assert (H1 : 0 <= 18446744073709551615 < 2 ^ 64)
    by (vm_compute; split; [discriminate | reflexivity]).
  split; [exact H1 |]. split; [reflexivity |].
  exact (proj1 (thread_id_is_printed_as_pthread_self 18446744073709551615 H1)).
Defined.

Lemma unmatched_stop_leaves_existing_entry_witness :
  let w := snd (clock_stop true steady_ticks 0 "a.cpp" "main" 12 1 initial_world) in
  get_thread_id true 1 ∈ threads_of (get_location "a.cpp" "main") (s_start_times 0 w)
  ∧ stack_at (get_location "a.cpp" "main") (get_thread_id true 1)
      (s_start_times 0 w) = []
  ∧ statics (snd (clock_stop true steady_ticks 0 "a.cpp" "main" 14 1 w))
    = statics w.
Proof.
  intros w.
  assert (Hin : get_thread_id true 1
                  ∈ threads_of (get_location "a.cpp" "main") (s_start_times 0 w)).
  { apply elem_of_dom. exists []. reflexivity. }
  split; [exact Hin |]. split; [reflexivity |].
  destruct (unmatched_stop_leaves_existing_entry true steady_ticks 0 "a.cpp" "main"
              14 15 1 w Hin eq_refl) as (Honce & _).
  exact Honce.
Defined.

Lemma clock_stop_when_the_clock_went_back_witness :
  let ticks := fun n : nat => 1000 - 7 * Z.of_nat n in
  let w := clock_start true ticks 0 "a.cpp" "main" 10 1 initial_world in
  stack_at (get_location "a.cpp" "main") (get_thread_id true 1) (s_start_times 0 w)
  = [mkTimer 1000 10]
  ∧ 1000 < 2 ^ 63
  ∧ wrap_signed 64 (ticks (clock_reads w)) < 1000
  ∧ fst (clock_stop true ticks 0 "a.cpp" "main" 12 1 w) = 2 ^ 64 - 7.
Proof.
  intros ticks w.
  split; [reflexivity |]. split; [reflexivity |]. split; [reflexivity |].
  destruct (clock_stop_when_the_clock_went_back true ticks 0 "a.cpp" "main" 12 1 w
              (mkTimer 1000 10) [] eq_refl eq_refl eq_refl) as (Hns & _).
  exact Hns.
Defined.

Lemma clock_func_duration_witness :
  let callable : Z -> Callable string Z := fun p w => (inr (p + 1), w) in
  callable 4 (snd (Clock_now steady_ticks initial_world))
  = (inr 5, mkWorld ∅ [] 1)
  ∧ ∃ ns,
      fst (clock_func true steady_ticks callable "s.cpp" 31 "foo()" 4 1
             initial_world) = inr ns
      ∧ 0 <= ns < 2 ^ 64.
Proof.
  intros callable. split; [reflexivity |].
  destruct (clock_func_duration true steady_ticks callable "s.cpp" 31 "foo()" 4 1
              initial_world 5 (mkWorld ∅ [] 1) eq_refl)
    as (ns & Hns & Hrange & _).
  exists ns. split; [exact Hns | exact Hrange].
Defined.

Lemma functions_of_a_file_do_not_pair_witness :
  (String.length ("a.cpp" +:+ "::" +:+ "void f()") <= 127)%nat
  ∧ (String.length ("a.cpp" +:+ "::" +:+ "void g()") <= 127)%nat
  ∧ "void f()"%string ≠ "void g()"%string
  ∧ stack_at (get_location "a.cpp" "void g()") (get_thread_id true 1)
      (s_start_times 0 initial_world) = []
  ∧ fst (clock_stop true steady_ticks 0 "a.cpp" "void g()" 30 1
           (clock_start true steady_ticks 0 "a.cpp" "void f()" 10 1 initial_world))
    = 0.
Proof.
  assert (Hf : (String.length ("a.cpp" +:+ "::" +:+ "void f()") <= 127)%nat)
    by (vm_compute; lia).
  assert (Hg : (String.length ("a.cpp" +:+ "::" +:+ "void g()") <= 127)%nat)
    by (vm_compute; lia).
  assert (Hne : "void f()"%string ≠ "void g()"%string) by discriminate.
  split; [exact Hf |]. split; [exact Hg |]. split; [exact Hne |].
  split; [reflexivity |].
  destruct (functions_of_a_file_do_not_pair true steady_ticks 0 0 "a.cpp" "void f()"
              "void g()" 10 30 1 initial_world Hf Hg Hne eq_refl)
    as (_ & Hzero & _).
  exact Hzero.
Defined.

Lemma functions_with_a_common_prefix_pair_witness :
  (∀ i, (i < 127)%nat →
     String.get i ("main.cpp" +:+ "::" +:+ long_signature)
     = String.get i ("main.cpp" +:+ "::" +:+ long_signature'))
  ∧ fst (clock_stop true steady_ticks 0 "main.cpp" long_signature' 30 1
           (clock_start true steady_ticks 0 "main.cpp" long_signature 10 1
              initial_world)) = 7.
Proof.
  assert (Hprefix : ∀ i, (i < 127)%nat →
            String.get i ("main.cpp" +:+ "::" +:+ long_signature)
            = String.get i ("main.cpp" +:+ "::" +:+ long_signature')).
  { apply substring_0_eq_iff. vm_compute. reflexivity. }
  split; [exact Hprefix |].
  destruct (functions_with_a_common_prefix_pair true steady_ticks 0 "main.cpp"
              long_signature long_signature' 10 30 1 initial_world Hprefix)
    as (_ & Hns & _).
  exact Hns.
Defined.

Lemma started_timers_are_in_flight_or_reported_witness :
  let trace : list (Z * Op string) :=
    [(1, Start 0 "a.cpp" "main" 10);
     (2, Start 1 "a.cpp" "main" 10);
     (1, Stop 0 "a.cpp" "main" 12);
     (1, Stop 0 "a.cpp" "main" 13);
     (3, Start 0 "b.cpp" "f" 5)] in
  Forall (fun so => is_measure (snd so) = false) trace
  ∧ (timers_in_flight (run true steady_ticks trace initial_world)
     + length (stderr (run true steady_ticks trace initial_world))
     = timers_in_flight initial_world + length (stderr initial_world) + 3)%nat.
Proof.
  intros trace.
  assert (Hk : Forall (fun so => is_measure (snd so) = false) trace).
  { repeat (apply List.Forall_cons; [reflexivity |]). apply List.Forall_nil. }
  split; [exact Hk |].
  exact (proj1 (started_timers_are_in_flight_or_reported true steady_ticks trace
                  initial_world Hk)).
Defined.

Lemma a_report_is_one_line_witness :
  let w := clock_start true steady_ticks 0 "a.cpp" "main" 10 1 initial_world in
  count_char "010" "a.cpp" = 0%nat
  ∧ count_char "010" "main" = 0%nat
  ∧ stack_at (get_location "a.cpp" "main") (get_thread_id true 1)
      (s_start_times 0 w) = [mkTimer 1000 10]
  ∧ ∃ body,
      stderr (snd (clock_stop true steady_ticks 0 "a.cpp" "main" 12 1 w))
      = stderr w ++ [body +:+ NL]
      ∧ count_char "010" body = 0%nat.
Proof.
  intros w.
  split; [reflexivity |]. split; [reflexivity |]. split; [reflexivity |].
  exact (proj1 (a_report_is_one_line true steady_ticks 0 "a.cpp" "main" 12 1 w
                  eq_refl eq_refl) (mkTimer 1000 10) [] eq_refl).
Defined.

Lemma nested_stops_unwind_in_reverse_witness :
  let ls := [10; 11; 12] in
  let sl := [13; 14; 15] in
  length ls = length sl
  ∧ stderr
      (run true steady_ticks
         (((fun l => (1, Start (E := string) 0 "a.cpp" "main" l)) <$> ls)
            ++ ((fun l => (1, Stop 0 "a.cpp" "main" l)) <$> sl)) initial_world)
    = [format_stop "a.cpp::main" 12 13 1 7;
       format_stop "a.cpp::main" 11 14 1 21;
       format_stop "a.cpp::main" 10 15 1 35].
Proof.
  intros ls sl. split; [reflexivity |].
  exact (proj2 (nested_stops_unwind_in_reverse true steady_ticks string 0 "a.cpp"
                  "main" 1 ls sl initial_world eq_refl)).
Defined.

Lemma CLOCK_names_the_callable_witness :
  let foo : Z -> Callable string Z := fun p w => (inr (p + 1), w) in
  let site := mkCallSite "source.cpp" "int main()" 31 in
  foo 4 (snd (Clock_now steady_ticks initial_world)) = (inr 5, mkWorld ∅ [] 1)
  ∧ ¬ In "["%char (list_ascii_of_string "foo")
  ∧ (String.length (__FILE__ site) + String.length "foo" + 4 <= 127)%nat
  ∧ ∃ ns,
      stderr (snd (CLOCK true steady_ticks foo "foo" 4 site 1 initial_world))
      = [] ++ [format_func "source.cpp::foo()" 31 (get_thread_id true 1) ns].
Proof.
  intros foo site.
  assert (Hnot : ¬ In "["%char (list_ascii_of_string "foo")).
  { simpl. intros [H | [H | [H | []]]]; discriminate. }
  assert (Hfit : (String.length (__FILE__ site) + String.length "foo" + 4
                  <= 127)%nat) by (vm_compute; lia).
  split; [reflexivity |]. split; [exact Hnot |]. split; [exact Hfit |].
  exact (proj1 (CLOCK_names_the_callable true steady_ticks foo "foo" 4 site 1
                  initial_world 5 (mkWorld ∅ [] 1) eq_refl) Hnot Hfit).
Defined.

Lemma matched_stop_can_return_zero_witness :
  let ticks := fun _ : nat => 1000 in
  let w := clock_start true ticks 0 "a.cpp" "main" 10 1 initial_world in
  stack_at (get_location "a.cpp" "main") (get_thread_id true 1) (s_start_times 0 w)
  = [mkTimer 1000 10]
  ∧ m_time (mkTimer 1000 10) = wrap_signed 64 (ticks (clock_reads w))
  ∧ fst (clock_stop true ticks 0 "a.cpp" "main" 12 1 w) = 0.
Proof.
  intros ticks w. split; [reflexivity |]. split; [reflexivity |].
  destruct (matched_stop_can_return_zero true ticks 0 "a.cpp" "main" 12 1 w
              (mkTimer 1000 10) [] eq_refl eq_refl) as (Hzero & _).
  exact Hzero.
Defined.

End clockpp.
